(** * MENA Dominion Bank: the session-synchronized gateway of script.js

    A shallow embedding of the authentication flow ([processLogin],
    [handleAuthSuccess]) and of the auto-sync interval callback, with the
    JSON values they scan, the session object they mutate and the effects
    they have on the page and on the network. *)

From Stdlib Require Import String Ascii List Bool ZArith Lia.
Import ListNotations.
Open Scope string_scope.
Open Scope list_scope.
Set Warnings "-register-all".

(** ** JavaScript values, as [response.json()] builds them *)

Module JS.

(** A Number is kept as the decimal rendering [Number.prototype.toString]
    gives it ([1234] as ["1234"]). Two numbers a JSON body can hold are [===]
    exactly when their renderings agree: distinct finite numbers render
    differently, and [+0] and [-0], which [===] identifies, both render ["0"].
    A string is a sequence of code units below 256. An object is the list of
    its own properties, the value of a key being its first entry. *)
Inductive value : Type :=
| VUndefined
| VNull
| VBool (b : bool)
| VNum (rendering : string)
| VStr (s : string)
| VArr (elems : list value)
| VObj (props : list (string * value)).

(** What a [throw] carries; the handlers of script.js never look inside. *)
Inductive error : Type :=
| FetchRejected   (* fetch(): no response was obtained *)
| SyntaxError     (* response.json(): the body is not JSON *)
| TypeError       (* property of null or undefined, call of a non-function *)
| UiFault.        (* an exception out of the DOM code of the dashboard *)

Inductive completion (A : Type) : Type :=
| Normal (a : A)
| Throw (e : error).
Arguments Normal {A} a.
Arguments Throw {A} e.

Definition cbind {A B} (c : completion A) (k : A -> completion B) : completion B :=
  match c with
  | Normal a => k a
  | Throw e => Throw e
  end.

Fixpoint own_property (k : string) (props : list (string * value)) : option value :=
  match props with
  | [] => None
  | (k', v) :: rest => if String.eqb k k' then Some v else own_property k rest
  end.

(** [o.k] for the keys script.js reads from the vault ([userDatabase],
    [username], [password]): none of them is defined by a prototype, so
    only an object's own property can answer; [null.k] and [undefined.k]
    throw. *)
Definition get (o : value) (k : string) : completion value :=
  match o with
  | VUndefined | VNull => Throw TypeError
  | VObj props =>
      match own_property k props with
      | Some v => Normal v
      | None => Normal VUndefined
      end
  | VBool _ | VNum _ | VStr _ | VArr _ => Normal VUndefined
  end.

(** WhiteSpace and LineTerminator code units below 256: TAB, LF, VT, FF, CR,
    SP and NBSP. *)
Definition is_white_space (c : ascii) : bool :=
  let n := nat_of_ascii c in
  (Nat.leb 9 n && Nat.leb n 13) || Nat.eqb n 32 || Nat.eqb n 160.

Fixpoint trimStart (s : string) : string :=
  match s with
  | EmptyString => EmptyString
  | String c rest => if is_white_space c then trimStart rest else s
  end.

Fixpoint trimEnd (s : string) : string :=
  match s with
  | EmptyString => EmptyString
  | String c rest =>
      match trimEnd rest with
      | EmptyString => if is_white_space c then EmptyString else String c EmptyString
      | kept => String c kept
      end
  end.

(** [String.prototype.trim] *)
Definition trim (s : string) : string := trimEnd (trimStart s).

(** [x.trim()]: only a string has a callable [trim]. *)
Definition call_trim (x : value) : completion string :=
  match x with
  | VStr s => Normal (trim s)
  | _ => Throw TypeError
  end.

Definition has_own (k : string) (props : list (string * value)) : bool :=
  match own_property k props with
  | Some _ => true
  | None => false
  end.

(** [x.toString()]. A string is itself, a number its rendering, an array the
    comma-joined conversion of its elements ([null] and [undefined] elements
    giving the empty string). An object answers ["[object Object]"] through
    [Object.prototype.toString] unless it has an own [toString] property,
    which in a parsed JSON body is never callable. *)
Fixpoint call_toString (x : value) : completion string :=
  match x with
  | VUndefined | VNull => Throw TypeError
  | VBool b => Normal (if b then "true" else "false")
  | VNum rendering => Normal rendering
  | VStr s => Normal s
  | VArr elems =>
      (fix join (l : list value) : completion string :=
         match l with
         | [] => Normal EmptyString
         | e :: rest =>
             cbind (match e with
                    | VUndefined | VNull => Normal EmptyString
                    | _ => call_toString e
                    end)
               (fun s =>
                  match rest with
                  | [] => Normal s
                  | _ :: _ => cbind (join rest) (fun t => Normal (s ++ "," ++ t)%string)
                  end)
         end) elems
  | VObj props =>
      if has_own "toString" props then Throw TypeError
      else Normal "[object Object]"
  end.

(** [a === b] between a value of one parsed body and a value of another:
    primitives by value, objects and arrays by reference, and two parses
    never share a reference. *)
Definition strict_equals (a b : value) : bool :=
  match a, b with
  | VUndefined, VUndefined => true
  | VNull, VNull => true
  | VBool x, VBool y => Bool.eqb x y
  | VNum x, VNum y => String.eqb x y
  | VStr x, VStr y => String.eqb x y
  | _, _ => false
  end.

(** ToBoolean *)
Definition truthy (v : value) : bool :=
  match v with
  | VUndefined | VNull => false
  | VBool b => b
  | VNum rendering => negb (String.eqb rendering "0")
  | VStr s => negb (String.eqb s EmptyString)
  | VArr _ | VObj _ => true
  end.

(** [Array.prototype.find] over the elements, the callback being allowed to
    throw: the first element the callback accepts, or [undefined]. *)
Fixpoint find_elem (p : value -> completion bool) (l : list value) : completion value :=
  match l with
  | [] => Normal VUndefined
  | u :: rest =>
      match p u with
      | Throw e => Throw e
      | Normal true => Normal u
      | Normal false => find_elem p rest
      end
  end.

(** [a.find(p)]: only an array has a callable [find]. *)
Definition call_find (a : value) (p : value -> completion bool) : completion value :=
  match a with
  | VArr elems => find_elem p elems
  | _ => Throw TypeError
  end.

End JS.
Import JS.

(** ** The page: configuration, session object, effects *)

Definition API_URL : string :=
  "https://api.sheety.co/47968877755ad230ff36a13667dfd22e/onlineBanking/userDatabase".
Definition REFRESH_RATE : Z := 30000.
Definition LOG_PREFIX : string := "[MDB-SECURITY]".

(** [activeSession]; [lastSync] holds [null] or the [Date] of
    [handleAuthSuccess], kept as milliseconds. *)
Record Session : Type := mkSession {
  isAuthenticated : bool;
  userData : value;
  lastSync : option Z
}.

Definition initialSession : Session :=
  {| isAuthenticated := false; userData := VNull; lastSync := None |}.

(** What the code does to the outside, in the order it does it. *)
Inductive effect : Type :=
| Fetch (url : string)                      (* fetch(CONFIG.API_URL) is issued *)
| ShowNotification (msg type : string)      (* showNotification(msg, type) *)
| SetLoadingState (isLoading : bool)        (* setLoadingState(loginBtn, isLoading) *)
| ShowDashboard                             (* lines 95-98: modal and hero hidden, dashboard shown *)
| RenderDashboard (u : value)               (* renderDashboard() runs on activeSession.userData *)
| Reload                                    (* window.location.reload() *)
| ConsoleLog (msg : string)
| ConsoleError (msg : string)
| ConsoleWarn (msg : string).

(** The page while it lives: the session object, the effects so far, and the
    suspended [async] calls, each waiting for its own [fetch]. All suspended
    [processLogin] calls have captured the same three elements, the
    suspended interval callbacks capture nothing, so a count of each is
    all the state of the pending continuations. *)
Record World : Type := mkWorld {
  activeSession : Session;
  trace : list effect;
  loginsInFlight : nat;
  syncsInFlight : nat
}.

Definition initialWorld : World :=
  {| activeSession := initialSession; trace := [];
     loginsInFlight := 0; syncsInFlight := 0 |}.

(** What the network hands back to one [fetch]. [fetch] rejects only when
    no response is obtained; a response of any status resolves it.
    [body] is what [response.json()] parses, [None] when the text is not JSON. *)
Record Response : Type := mkResponse {
  status : nat;
  body : option value
}.

Inductive FetchOutcome : Type :=
| Rejected
| Resolved (response : Response).

(** How the code that displays a record ends on that record: it runs
    through, or it throws (a record without [accountType] at line 111, a
    currency [Intl] refuses at line 133, a [fullName] that has no string
    conversion). The page is assumed to contain the elements the script looks
    up. Both callers write the session before any of the display code runs.
    [RenderDashboard] records that [renderDashboard()] was called; a fault
    inside it comes after. *)
Inductive UiOutcome : Type :=
| UiCompletes
| UiThrows.

(** [await fetch(CONFIG.API_URL)] once the request has settled *)
Definition await_fetch (o : FetchOutcome) : completion Response :=
  match o with
  | Rejected => Throw FetchRejected
  | Resolved r => Normal r
  end.

(** [await response.json()] *)
Definition json (r : Response) : completion value :=
  match body r with
  | Some v => Normal v
  | None => Throw SyntaxError
  end.

(** The record-store read both [processLogin] (lines 60-64) and the interval
    callback (lines 167-169) perform once their request has settled:
    [const response = await fetch(CONFIG.API_URL);
     const result = await response.json();
     ... result.userDatabase]. The status of the response is not looked at,
    and what [userDatabase] holds is handed on as it is. *)
Definition fetchVault (outcome : FetchOutcome) : completion value :=
  cbind (await_fetch outcome) (fun response =>
  cbind (json response) (fun result =>
  get result "userDatabase")).

(** ** Statements: state and exceptions *)

Definition M (A : Type) : Type := World -> completion A * World.

Definition ret {A} (a : A) : M A := fun w => (Normal a, w).

Definition bind {A B} (m : M A) (k : A -> M B) : M B :=
  fun w =>
    match m w with
    | (Normal a, w') => k a w'
    | (Throw e, w') => (Throw e, w')
    end.

Definition throw {A} (e : error) : M A := fun w => (Throw e, w).

Definition lift {A} (c : completion A) : M A := fun w => (c, w).

Definition try_catch {A} (m : M A) (handler : error -> M A) : M A :=
  fun w =>
    match m w with
    | (Normal a, w') => (Normal a, w')
    | (Throw e, w') => handler e w'
    end.

Notation "x <- m ;; k" := (bind m (fun x => k))
  (at level 61, m at next level, right associativity).
Notation "m ;;; k" := (bind m (fun _ => k))
  (at level 61, right associativity).

Definition emit (e : effect) : M unit :=
  fun w => (Normal tt,
            {| activeSession := activeSession w; trace := trace w ++ [e];
               loginsInFlight := loginsInFlight w; syncsInFlight := syncsInFlight w |}).

Definition readSession : M Session := fun w => (Normal (activeSession w), w).

Definition writeSession (f : Session -> Session) : M unit :=
  fun w => (Normal tt,
            {| activeSession := f (activeSession w); trace := trace w;
               loginsInFlight := loginsInFlight w; syncsInFlight := syncsInFlight w |}).

Definition set_isAuthenticated (b : bool) (s : Session) : Session :=
  {| isAuthenticated := b; userData := userData s; lastSync := lastSync s |}.
Definition set_userData (u : value) (s : Session) : Session :=
  {| isAuthenticated := isAuthenticated s; userData := u; lastSync := lastSync s |}.
Definition set_lastSync (t : option Z) (s : Session) : Session :=
  {| isAuthenticated := isAuthenticated s; userData := userData s; lastSync := t |}.

(** ** script.js *)

Definition showNotification (msg type : string) : M unit := emit (ShowNotification msg type).
Definition setLoadingState (isLoading : bool) : M unit := emit (SetLoadingState isLoading).

(** [renderDashboard()], lines 104-129: reads the record out of the session
    and projects it; the call is one effect, and the fault, if the display
    code throws here, follows it. *)
Definition renderDashboard (ui : UiOutcome) : M unit :=
  s <- readSession ;;
  emit (RenderDashboard (userData s)) ;;;
  match ui with
  | UiCompletes => ret tt
  | UiThrows => throw UiFault
  end.

(** ToString, as a template literal applies it to [${...}]. *)
Definition toTemplateString (v : value) : completion string :=
  match v with
  | VUndefined => Normal "undefined"
  | VNull => Normal "null"
  | _ => call_toString v
  end.

(** The text of the console line 92, [Access Granted for: ${data.fullName}]:
    building it throws when the name has no string conversion. *)
Definition accessGranted (data : value) : completion string :=
  cbind (get data "fullName") (fun fullName =>
  cbind (toTemplateString fullName) (fun name =>
  Normal (LOG_PREFIX ++ " Access Granted for: " ++ name)%string)).

(** [handleAuthSuccess(data)], lines 87-101: the three writes to the
    session, then the console line, then the four style writes, kept as the
    effect [ShowDashboard], then [renderDashboard()]. When the display code
    throws, the record tells where: on the console line, before any style
    write, if its name has no string conversion, and inside
    [renderDashboard()] otherwise, the style writes themselves finding their
    elements. *)
Definition handleAuthSuccess (data : value) (now : Z) (ui : UiOutcome) : M unit :=
  writeSession (set_isAuthenticated true) ;;;
  writeSession (set_userData data) ;;;
  writeSession (set_lastSync (Some now)) ;;;
  match ui, accessGranted data with
  | UiThrows, Throw e => throw e
  | _, _ => emit ShowDashboard ;;; renderDashboard ui
  end.

(** The callback of line 67-70:
    [u.username.trim() === userField.value.trim() &&
     u.password.toString() === passField.value.trim()].
    [&&] does not look at the password of a record whose name differs. *)
Definition credentialsMatch (user pass : string) (u : value) : completion bool :=
  cbind (get u "username") (fun name =>
  cbind (call_trim name) (fun trimmed =>
  if String.eqb trimmed (trim user) then
    cbind (get u "password") (fun password =>
    cbind (call_toString password) (fun secret =>
    Normal (String.eqb secret (trim pass))))
  else Normal false)).

(** [userFound], lines 67-70: the credential verifier,
    [vaultData.find(u => ...)] on the values of the two input fields. *)
Definition userFound (vaultData : value) (user pass : string) : completion value :=
  call_find vaultData (credentialsMatch user pass).

(** [!userField.value || !passField.value]: the value of an input element is
    a string, falsy exactly when empty. *)
Definition credentialsMissing (user pass : string) : bool :=
  negb (truthy (VStr user)) || negb (truthy (VStr pass)).

(** [processLogin()] from its call to the [await] of line 60. The answer
    tells whether a request went out, that is whether the call is now
    suspended. *)
Definition processLogin_begin (user pass : string) : M bool :=
  if credentialsMissing user pass then
    showNotification "Security Alert: Credentials Required" "error" ;;;
    ret false
  else
    setLoadingState true ;;;
    emit (ConsoleLog (LOG_PREFIX ++ " Attempting secure fetch from vault...")%string) ;;;
    emit (Fetch API_URL) ;;;
    ret true.

(** [processLogin()] from the moment its request settles, lines 60-83. The
    two awaits are taken as one suspension: nothing of the page is read or
    written between them. [user] and [pass] are the values the two fields
    hold at that moment, which is when the callback of [find] reads them. *)
Definition processLogin_resume (outcome : FetchOutcome) (user pass : string)
    (now : Z) (ui : UiOutcome) : M unit :=
  try_catch
    (vaultData <- lift (fetchVault outcome) ;;
     found <- lift (userFound vaultData user pass) ;;
     if truthy found then
       handleAuthSuccess found now ui
     else
       showNotification "Access Denied: Invalid Authorization" "error" ;;;
       setLoadingState false)
    (fun _ =>
       emit (ConsoleError (LOG_PREFIX ++ " Critical System Fault:")%string) ;;;
       showNotification "System Error: Vault Connection Timed Out" "error" ;;;
       setLoadingState false).

(** One login attempt run to its end with nothing in between. *)
Definition processLogin (user pass : string) (outcome : FetchOutcome)
    (now : Z) (ui : UiOutcome) : M unit :=
  sent <- processLogin_begin user pass ;;
  if sent then processLogin_resume outcome user pass now ui else ret tt.

(** The callback of line 169: [u.username === activeSession.userData.username]. *)
Definition sameUsername (s : Session) (u : value) : completion bool :=
  cbind (get u "username") (fun name =>
  cbind (get (userData s) "username") (fun held =>
  Normal (strict_equals name held))).

(** The interval callback, lines 164-167 up to its [await]: whether a
    request went out. *)
Definition autoSync_begin : M bool :=
  s <- readSession ;;
  if isAuthenticated s then
    emit (Fetch API_URL) ;;;
    ret true
  else ret false.

(** The interval callback from the moment its request settles, lines 167-178. *)
Definition autoSync_resume (outcome : FetchOutcome) (ui : UiOutcome) : M unit :=
  try_catch
    (vaultData <- lift (fetchVault outcome) ;;
     s <- readSession ;;
     freshData <- lift (call_find vaultData (sameUsername s)) ;;
     if truthy freshData then
       writeSession (set_userData freshData) ;;;
       renderDashboard ui ;;;
       emit (ConsoleLog (LOG_PREFIX ++ " Vault Sync Complete. Balance Updated.")%string)
     else ret tt)
    (fun _ => emit (ConsoleWarn "Sync temporarily interrupted.")).

(** One tick of the interval run to its end with nothing in between. *)
Definition autoSync (outcome : FetchOutcome) (ui : UiOutcome) : M unit :=
  sent <- autoSync_begin ;;
  if sent then autoSync_resume outcome ui else ret tt.

(** ** The event loop *)

(** What can happen to the page: the user asks for a login, the timer of
    [setInterval] fires, the request of a suspended call settles, the user
    logs out. *)
Inductive event : Type :=
| LoginSubmitted (user pass : string)
| LoginFetchSettled (outcome : FetchOutcome) (user pass : string) (now : Z) (ui : UiOutcome)
| TimerFired
| SyncFetchSettled (outcome : FetchOutcome) (ui : UiOutcome)
| LoggedOut.

Definition with_loginsInFlight (n : nat) (w : World) : World :=
  {| activeSession := activeSession w; trace := trace w;
     loginsInFlight := n; syncsInFlight := syncsInFlight w |}.
Definition with_syncsInFlight (n : nat) (w : World) : World :=
  {| activeSession := activeSession w; trace := trace w;
     loginsInFlight := loginsInFlight w; syncsInFlight := n |}.

(** [logout()], line 159-161: the page is loaded again, which runs the script
    from its first line: a new [activeSession], and none of the suspended
    calls of the old page left. *)
Definition logout (w : World) : World :=
  {| activeSession := initialSession; trace := trace w ++ [Reload];
     loginsInFlight := 0; syncsInFlight := 0 |}.

(** [setInterval] calls its callback at every period whatever became of the
    promise the previous call returned; a settled request resumes one of the
    calls waiting for it, and there is nothing to resume when none waits. *)
Definition step (w : World) (ev : event) : World :=
  match ev with
  | LoginSubmitted user pass =>
      match processLogin_begin user pass w with
      | (Normal true, w') => with_loginsInFlight (S (loginsInFlight w')) w'
      | (_, w') => w'
      end
  | LoginFetchSettled outcome user pass now ui =>
      match loginsInFlight w with
      | O => w
      | S n => snd (processLogin_resume outcome user pass now ui (with_loginsInFlight n w))
      end
  | TimerFired =>
      match autoSync_begin w with
      | (Normal true, w') => with_syncsInFlight (S (syncsInFlight w')) w'
      | (_, w') => w'
      end
  | SyncFetchSettled outcome ui =>
      match syncsInFlight w with
      | O => w
      | S n => snd (autoSync_resume outcome ui (with_syncsInFlight n w))
      end
  | LoggedOut => logout w
  end.

Definition run (w : World) (evs : list event) : World := fold_left step evs w.

(** The network calls made so far. *)
Definition fetchCount (w : World) : nat :=
  length (filter (fun e => match e with Fetch _ => true | _ => false end) (trace w)).

(** ** What the design says, to compare the code with *)

(** The secret of a record, compared as a string: [u.password.toString()]. *)
Definition secretOf (u : value) : completion string :=
  cbind (get u "password") call_toString.

(** A record of a RecordCollection: its identity key is a string and its
    secret has a string form. *)
Definition isUserRecord (u : value) : bool :=
  match get u "username", secretOf u with
  | Normal (VStr _), Normal _ => true
  | _, _ => false
  end.

(** A record matches submitted credentials when its identity key equals the
    submitted one, both trimmed, and its secret, as a string, equals the
    submitted secret, trimmed. *)
Definition recordMatches (user pass : string) (u : value) : Prop :=
  exists name secret,
    get u "username" = Normal (VStr name) /\ trim name = trim user /\
    secretOf u = Normal secret /\ secret = trim pass.

(** A login attempt verifies record [r]: both fields are filled, the vault
    answers with a body whose [userDatabase] is scanned to the end of the
    search, and the search yields [r]. *)
Inductive LoginVerified (user pass : string) : FetchOutcome -> value -> Prop :=
| login_verified : forall vaultData outcome r,
    credentialsMissing user pass = false ->
    fetchVault outcome = Normal vaultData ->
    userFound vaultData user pass = Normal r ->
    truthy r = true ->
    LoginVerified user pass outcome r.

(** A login attempt fails: a field is empty, or the vault cannot be read
    (no response, a body that is not JSON, no object to take [userDatabase]
    from), or the scan breaks off (no array to scan, a malformed record met
    on the way), or no record matches. *)
Inductive LoginFailed (user pass : string) : FetchOutcome -> Prop :=
| failed_missing : forall outcome,
    credentialsMissing user pass = true -> LoginFailed user pass outcome
| failed_vault : forall outcome e,
    fetchVault outcome = Throw e -> LoginFailed user pass outcome
| failed_scan : forall outcome vaultData e,
    fetchVault outcome = Normal vaultData ->
    userFound vaultData user pass = Throw e -> LoginFailed user pass outcome
| failed_no_match : forall outcome vaultData,
    fetchVault outcome = Normal vaultData ->
    userFound vaultData user pass = Normal VUndefined -> LoginFailed user pass outcome.

(** The vault cannot be read as a collection: the request is rejected, the
    body is not JSON, or its [userDatabase] is absent or not an array. The
    status of the response plays no part. *)
Inductive VaultUnreadable : FetchOutcome -> Prop :=
| unreadable_rejected : VaultUnreadable Rejected
| unreadable_not_json : forall st, VaultUnreadable (Resolved (mkResponse st None))
| unreadable_no_collection : forall st result,
    (forall elems, get result "userDatabase" <> Normal (VArr elems)) ->
    VaultUnreadable (Resolved (mkResponse st (Some result))).

(** A sync brings nothing for the held record: the vault cannot be read, or
    the collection it returns has no record whose [username] is [===] to the
    held one. *)
Inductive SyncMiss (s : Session) : FetchOutcome -> Prop :=
| miss_unreadable : forall outcome, VaultUnreadable outcome -> SyncMiss s outcome
| miss_absent : forall st result elems,
    get result "userDatabase" = Normal (VArr elems) ->
    (forall u name held, In u elems -> get u "username" = Normal name ->
       get (userData s) "username" = Normal held -> strict_equals name held = false) ->
    SyncMiss s (Resolved (mkResponse st (Some result))).

(** The session is in one of its two states: nothing held, or a record with
    a string [username] held together with the time it was taken. *)
Definition SessionInvariant (s : Session) : Prop :=
  (isAuthenticated s = false /\ userData s = VNull /\ lastSync s = None) \/
  (isAuthenticated s = true /\
   (exists props name, userData s = VObj props /\
                       own_property "username" props = Some (VStr name)) /\
   (exists t, lastSync s = Some t)).

Definition appendTrace (es : list effect) (w : World) : World :=
  {| activeSession := activeSession w; trace := trace w ++ es;
     loginsInFlight := loginsInFlight w; syncsInFlight := syncsInFlight w |}.

(** The effects of a login attempt up to its request. *)
Definition loginRequest : list effect :=
  [SetLoadingState true;
   ConsoleLog "[MDB-SECURITY] Attempting secure fetch from vault...";
   Fetch API_URL].

(** The effects of the [catch] of [processLogin]. *)
Definition vaultFault : list effect :=
  [ConsoleError "[MDB-SECURITY] Critical System Fault:";
   ShowNotification "System Error: Vault Connection Timed Out" "error";
   SetLoadingState false].

(** The effects of the [else] of line 74. *)
Definition accessDenied : list effect :=
  [ShowNotification "Access Denied: Invalid Authorization" "error";
   SetLoadingState false].

(** ** A vault to run the code on *)

(** The record of the design's scenario, as the vault holds it at login. *)
Definition alice : value :=
  VObj [("username", VStr "alice"); ("password", VNum "1234");
        ("fullName", VStr "Alice A"); ("accountType", VStr "Savings");
        ("balance", VNum "500"); ("currency", VStr "USD")].

(** The same account after the balance was changed in the sheet. *)
Definition aliceCredited : value :=
  VObj [("username", VStr "alice"); ("password", VNum "1234");
        ("fullName", VStr "Alice A"); ("accountType", VStr "Savings");
        ("balance", VNum "750"); ("currency", VStr "USD")].

Definition bob : value :=
  VObj [("username", VStr "bob"); ("password", VStr "hunter2");
        ("fullName", VStr "Bob B"); ("accountType", VStr "Current");
        ("balance", VNum "20"); ("currency", VStr "EUR")].

(** A record whose secret was typed into the sheet with a leading blank. *)
Definition carol : value :=
  VObj [("username", VStr "carol"); ("password", VStr " 1234")].

(** A response of the given status whose body is [{ userDatabase: records }]. *)
Definition vaultResponse (st : nat) (records : list value) : FetchOutcome :=
  Resolved {| status := st; body := Some (VObj [("userDatabase", VArr records)]) |}.

(** Alice logs in at time 1000 and the dashboard is drawn. *)
Definition aliceLoggedIn : World :=
  run initialWorld
    [LoginSubmitted "alice" "1234";
     LoginFetchSettled (vaultResponse 200 [bob; alice]) "alice" "1234" 1000 UiCompletes].

(** ** The elements of the page *)

Definition doubleQuote : string := String (ascii_of_nat 34) EmptyString.
Definition newline : string := String (ascii_of_nat 10) EmptyString.

(** What the script last assigned to the elements of the dashboard:
    [innerText] of [client-name], [user-balance], [user-acc-num],
    [user-acc-type], [user-credit] and [user-status], [innerHTML] of
    [user-history], [src] of [user-avatar]. *)
Record Dashboard : Type := mkDashboard {
  clientName : string;
  userBalance : string;
  userAccNum : string;
  userAccType : string;
  userCredit : string;
  userStatus : string;
  userHistory : string;
  userAvatar : string
}.

(** [style.display] of [vault-modal], [landing-hero], [.info-grid] and
    [dashboard-app]. *)
Record Layout : Type := mkLayout {
  vaultModal : string;
  landingHero : string;
  infoGrid : string;
  dashboardApp : string
}.

(** The button [.btn-auth-action]. *)
Record Button : Type := mkButton {
  disabled : bool;
  innerHTML : string
}.

Record Page : Type := mkPage {
  layout : Layout;
  button : Button;
  board : Dashboard
}.

(** What the browser does for the script and script.js does not contain:
    [new Intl.NumberFormat('en-US', { style: 'currency', currency }).format(amount)],
    given the currency option and the amount, [None] when it throws; and
    [String.prototype.toUpperCase]. *)
Record Platform : Type := mkPlatform {
  intlCurrency : value -> value -> option string;
  toUpperCase : string -> string
}.

(** Statements over a piece of the page: state and exceptions. *)
Definition SE (S A : Type) : Type := S -> completion A * S.

Definition se_bind {S A B} (m : SE S A) (k : A -> SE S B) : SE S B :=
  fun s =>
    match m s with
    | (Normal a, s') => k a s'
    | (Throw e, s') => (Throw e, s')
    end.

Definition se_lift {S A} (c : completion A) : SE S A := fun s => (c, s).

Definition se_write {S} (f : S -> S) : SE S unit := fun s => (Normal tt, f s).

Definition se_ret {S A} (a : A) : SE S A := fun s => (Normal a, s).

Notation "x <~ m ;; k" := (se_bind m (fun x => k))
  (at level 61, m at next level, right associativity).
Notation "m ~;; k" := (se_bind m (fun _ => k))
  (at level 61, right associativity).

(** The conversion of a value assigned to [innerText]: ToString, but [null]
    gives the empty string. *)
Definition toInnerText (v : value) : completion string :=
  match v with
  | VNull => Normal EmptyString
  | _ => toTemplateString v
  end.

(** [a || fallback] *)
Definition orElse (a fallback : value) : value := if truthy a then a else fallback.

(** [formatCurrency(amount, currency = 'USD')], lines 132-137: the default
    stands in for a missing argument and for [undefined], not for [null]. *)
Definition formatCurrency (pf : Platform) (amount currency : value) : completion string :=
  match intlCurrency pf (match currency with VUndefined => VStr "USD" | _ => currency end)
          amount with
  | Some text => Normal text
  | None => Throw UiFault
  end.

(** [x.toUpperCase()]: only a string has it. *)
Definition call_toUpperCase (pf : Platform) (x : value) : completion string :=
  match x with
  | VStr s => Normal (toUpperCase pf s)
  | _ => Throw TypeError
  end.

(** [s.split(';')] *)
Fixpoint splitSemicolon (s : string) : list string :=
  match s with
  | EmptyString => [EmptyString]
  | String c rest =>
      if Ascii.eqb c ";"%char then EmptyString :: splitSemicolon rest
      else match splitSemicolon rest with
           | piece :: pieces => String c piece :: pieces
           | [] => [String c EmptyString]
           end
  end.

(** [x.split(';')]: only a string has it. *)
Definition call_split (x : value) : completion (list string) :=
  match x with
  | VStr s => Normal (splitSemicolon s)
  | _ => Throw TypeError
  end.

(** The template literal of lines 119-124 around [item.trim()]. *)
Definition transactionItem (item : string) : string :=
  (newline ++
   "            <div class=" ++ doubleQuote ++ "transaction-item" ++ doubleQuote ++ ">" ++
   newline ++
   "                <span>" ++ trim item ++ "</span>" ++ newline ++
   "                <span class=" ++ doubleQuote ++ "status-tag" ++ doubleQuote ++
   ">SECURED</span>" ++ newline ++
   "            </div>" ++ newline ++
   "        ")%string.

(** [historyArray.map(item => ...).join('')] *)
Definition historyMarkup (historyArray : list string) : string :=
  fold_right (fun item rest => (transactionItem item ++ rest)%string) EmptyString historyArray.

Definition set_clientName (t : string) (d : Dashboard) : Dashboard :=
  mkDashboard t (userBalance d) (userAccNum d) (userAccType d) (userCredit d)
    (userStatus d) (userHistory d) (userAvatar d).
Definition set_userBalance (t : string) (d : Dashboard) : Dashboard :=
  mkDashboard (clientName d) t (userAccNum d) (userAccType d) (userCredit d)
    (userStatus d) (userHistory d) (userAvatar d).
Definition set_userAccNum (t : string) (d : Dashboard) : Dashboard :=
  mkDashboard (clientName d) (userBalance d) t (userAccType d) (userCredit d)
    (userStatus d) (userHistory d) (userAvatar d).
Definition set_userAccType (t : string) (d : Dashboard) : Dashboard :=
  mkDashboard (clientName d) (userBalance d) (userAccNum d) t (userCredit d)
    (userStatus d) (userHistory d) (userAvatar d).
Definition set_userCredit (t : string) (d : Dashboard) : Dashboard :=
  mkDashboard (clientName d) (userBalance d) (userAccNum d) (userAccType d) t
    (userStatus d) (userHistory d) (userAvatar d).
Definition set_userStatus (t : string) (d : Dashboard) : Dashboard :=
  mkDashboard (clientName d) (userBalance d) (userAccNum d) (userAccType d) (userCredit d)
    t (userHistory d) (userAvatar d).
Definition set_userHistory (t : string) (d : Dashboard) : Dashboard :=
  mkDashboard (clientName d) (userBalance d) (userAccNum d) (userAccType d) (userCredit d)
    (userStatus d) t (userAvatar d).
Definition set_userAvatar (t : string) (d : Dashboard) : Dashboard :=
  mkDashboard (clientName d) (userBalance d) (userAccNum d) (userAccType d) (userCredit d)
    (userStatus d) (userHistory d) t.

(** [renderDashboard()], lines 104-129, write by write, on the record [u]
    the session holds. A statement that throws leaves the writes before it
    in place. *)
Definition renderDashboard_board (pf : Platform) (u : value) : SE Dashboard unit :=
  fullName <~ se_lift (get u "fullName") ;;
  name <~ se_lift (toInnerText fullName) ;;
  se_write (set_clientName name) ~;;
  balance <~ se_lift (get u "balance") ;;
  currency <~ se_lift (get u "currency") ;;
  formatted <~ se_lift (formatCurrency pf balance currency) ;;
  se_write (set_userBalance formatted) ~;;
  accountNumber <~ se_lift (get u "accountNumber") ;;
  number <~ se_lift (toTemplateString accountNumber) ;;
  se_write (set_userAccNum ("Acc: " ++ number)%string) ~;;
  accountType <~ se_lift (get u "accountType") ;;
  upper <~ se_lift (call_toUpperCase pf accountType) ;;
  se_write (set_userAccType upper) ~;;
  creditScore <~ se_lift (get u "creditScore") ;;
  credit <~ se_lift (toInnerText (orElse creditScore (VStr "700"))) ;;
  se_write (set_userCredit credit) ~;;
  accountStatus <~ se_lift (get u "accountStatus") ;;
  status <~ se_lift (toInnerText (orElse accountStatus (VStr "Active"))) ;;
  se_write (set_userStatus status) ~;;
  transactionHistory <~ se_lift (get u "transactionHistory") ;;
  (if truthy transactionHistory then
     historyArray <~ se_lift (call_split transactionHistory) ;;
     se_write (set_userHistory (historyMarkup historyArray))
   else se_ret tt) ~;;
  fullName' <~ se_lift (get u "fullName") ;;
  name' <~ se_lift (toTemplateString fullName') ;;
  se_write (set_userAvatar
              ("https://ui-avatars.com/api/?name=" ++ name' ++
               "&background=d4af37&color=0a192f&bold=true")%string).

Definition onBoard {A} (m : SE Dashboard A) : SE Page A :=
  fun p =>
    match m (board p) with
    | (r, b) => (r, mkPage (layout p) (button p) b)
    end.

(** Lines 95-98 *)
Definition showDashboard (l : Layout) : Layout :=
  {| vaultModal := "none"; landingHero := "none"; infoGrid := "none";
     dashboardApp := "block" |}.

(** [handleAuthSuccess(data)] after its three writes to the session, lines
    92-100: the console line with [${data.fullName}], the four style writes,
    [renderDashboard()] on the record just stored. *)
Definition handleAuthSuccess_page (pf : Platform) (data : value) : SE Page unit :=
  fullName <~ se_lift (get data "fullName") ;;
  se_lift (toTemplateString fullName) ~;;
  se_write (fun p => mkPage (showDashboard (layout p)) (button p) (board p)) ~;;
  onBoard (renderDashboard_board pf data).

(** How the display code ended, for [processLogin] and the interval callback. *)
Definition uiOutcomeOf {A} (c : completion A) : UiOutcome :=
  match c with
  | Normal _ => UiCompletes
  | Throw _ => UiThrows
  end.

(** [setLoadingState(btn, isLoading)], lines 139-147. *)
Definition setLoadingState_button (isLoading : bool) (b : Button) : Button :=
  if isLoading then
    {| disabled := true;
       innerHTML := ("<i class=" ++ doubleQuote ++ "fa fa-spinner fa-spin" ++ doubleQuote ++
                     "></i> AUTHORIZING...")%string |}
  else
    {| disabled := false; innerHTML := "AUTHORIZE SESSION" |}.

(** The button after the [setLoadingState] calls of a trace. *)
Definition replayButton (es : list effect) (b : Button) : Button :=
  fold_left (fun b e => match e with
                        | SetLoadingState isLoading => setLoadingState_button isLoading b
                        | _ => b
                        end) es b.

(** [toggleVault()], lines 154-157. *)
Definition toggleVault (l : Layout) : Layout :=
  {| vaultModal := if String.eqb (vaultModal l) "none" then "flex" else "none";
     landingHero := landingHero l; infoGrid := infoGrid l; dashboardApp := dashboardApp l |}.

(** The number of [;] in a string. *)
Fixpoint semicolons (s : string) : nat :=
  match s with
  | EmptyString => 0
  | String c rest => (if Ascii.eqb c ";"%char then 1 else 0) + semicolons rest
  end.

(** [pieces.join(';')] *)
Fixpoint joinSemicolon (pieces : list string) : string :=
  match pieces with
  | [] => EmptyString
  | [piece] => piece
  | piece :: rest => (piece ++ ";" ++ joinSemicolon rest)%string
  end.

(** The notifications script.js can show. *)
Definition knownNotification (e : effect) : Prop :=
  match e with
  | ShowNotification msg type =>
      type = "error" /\
      (msg = "Security Alert: Credentials Required" \/
       msg = "Access Denied: Invalid Authorization" \/
       msg = "System Error: Vault Connection Timed Out")
  | _ => True
  end.

(** A platform to run the display code on: amounts shown as they are after
    the currency code, letters left as they are. *)
Definition plainPlatform : Platform :=
  {| intlCurrency := fun currency amount =>
       match currency, toTemplateString amount with
       | VStr code, Normal digits => Some (code ++ " " ++ digits)%string
       | _, _ => None
       end;
     toUpperCase := fun s => s |}.

Definition blankDashboard : Dashboard :=
  mkDashboard EmptyString EmptyString EmptyString EmptyString EmptyString EmptyString
    EmptyString EmptyString.

Definition blankPage : Page :=
  mkPage (mkLayout EmptyString EmptyString EmptyString EmptyString)
    (mkButton false "AUTHORIZE SESSION") blankDashboard.

(** A record with a history and a zero credit score. *)
Definition dave : value :=
  VObj [("username", VStr "dave"); ("password", VStr "pw");
        ("fullName", VStr "Dave D"); ("accountType", VStr "Savings");
        ("accountNumber", VNum "42"); ("balance", VNum "10"); ("creditScore", VNum "0");
        ("transactionHistory", VStr "rent; salary;")].

(** A record the sheet holds without an account type. *)
Definition erin : value :=
  VObj [("username", VStr "erin"); ("password", VStr "pw"); ("fullName", VStr "Erin E")].

(** The events at which a call of the script reaches its [fetch]. *)
Definition sendsRequest (ev : event) : bool :=
  match ev with
  | LoginSubmitted _ _ | TimerFired => true
  | _ => false
  end.

(** The events that are neither a settled login nor a logout. *)
Definition keepsIdentity (ev : event) : bool :=
  match ev with
  | LoginFetchSettled _ _ _ _ _ | LoggedOut => false
  | _ => true
  end.

Definition isFetch (e : effect) : bool :=
  match e with
  | Fetch _ => true
  | _ => false
  end.

(** Effects that hold no request and no notification but the three known. *)
Definition quiet (es : list effect) : Prop :=
  Forall knownNotification es /\ filter isFetch es = [].

(** The values a cell of the sheet gives: absent, empty, a boolean, a number
    or a string. *)
Definition isScalar (v : value) : bool :=
  match v with
  | VArr _ | VObj _ => false
  | _ => true
  end.

(** ** Strings *)

Lemma trimEnd_idempotent (s : string) : trimEnd (trimEnd s) = trimEnd s.
Proof.
  induction s as [|c rest IH]; simpl; [reflexivity|].
  destruct (trimEnd rest) as [|k kept] eqn:E.
  - destruct (is_white_space c) eqn:W; simpl; [reflexivity|].
    rewrite W. reflexivity.
  - change (trimEnd (String c (String k kept)))
      with (match trimEnd (String k kept) with
            | EmptyString => if is_white_space c then EmptyString else String c EmptyString
            | kept' => String c kept'
            end).
    rewrite IH. reflexivity.
Qed.

Lemma trimStart_head (s : string) (c : ascii) (rest : string) :
  trimStart s = String c rest -> is_white_space c = false.
Proof.
  induction s as [|d s' IH]; simpl; [discriminate|].
  destruct (is_white_space d) eqn:W; [exact IH|].
  intros H. injection H as -> _. exact W.
Qed.

Lemma trimEnd_head (c : ascii) (rest : string) :
  is_white_space c = false -> exists kept, trimEnd (String c rest) = String c kept.
Proof.
  intros W. simpl. destruct (trimEnd rest) as [|k kept].
  - rewrite W. eexists; reflexivity.
  - eexists; reflexivity.
Qed.

Lemma trim_idempotent (s : string) : trim (trim s) = trim s.
Proof.
  unfold trim. destruct (trimStart s) as [|c rest] eqn:E; [reflexivity|].
  destruct (trimEnd_head c rest (trimStart_head _ _ _ E)) as [kept K].
  rewrite K. simpl trimStart at 1.
  rewrite (trimStart_head _ _ _ E), <- K. apply trimEnd_idempotent.
Qed.

(** ** The scan *)

Lemma find_elem_none (p : value -> completion bool) (l : list value) :
  (forall u, In u l -> p u = Normal false) -> find_elem p l = Normal VUndefined.
Proof.
  induction l as [|u rest IH]; intros H; simpl; [reflexivity|].
  rewrite (H u (or_introl eq_refl)). apply IH. intros v Hv. apply H. right. exact Hv.
Qed.

Lemma find_elem_first (p : value -> completion bool) (before after : list value) (r : value) :
  (forall u, In u before -> p u = Normal false) -> p r = Normal true ->
  find_elem p (before ++ r :: after) = Normal r.
Proof.
  induction before as [|u rest IH]; intros H Hr; simpl.
  - rewrite Hr. reflexivity.
  - rewrite (H u (or_introl eq_refl)). apply IH; [|exact Hr].
    intros v Hv. apply H. right. exact Hv.
Qed.

Lemma find_elem_found (p : value -> completion bool) (l : list value) (r : value) :
  find_elem p l = Normal r -> r = VUndefined \/ (In r l /\ p r = Normal true).
Proof.
  induction l as [|u rest IH]; simpl; intros H.
  - left. congruence.
  - destruct (p u) as [[|]|e] eqn:E.
    + right. injection H as <-. split; [left; reflexivity|exact E].
    + destruct (IH H) as [->|[Hin Hp]]; [left; reflexivity|right; split; [right|]; assumption].
    + discriminate.
Qed.

Lemma first_accepted (p : value -> completion bool) (l : list value) (r : value) :
  (forall u, In u l -> exists b, p u = Normal b) -> In r l -> p r = Normal true ->
  exists before r0 after,
    l = before ++ r0 :: after /\
    (forall u, In u before -> p u = Normal false) /\ p r0 = Normal true.
Proof.
  induction l as [|u rest IH]; intros Hall Hin Hr; [contradiction|].
  destruct (Hall u (or_introl eq_refl)) as [[|] Hb].
  - exists [], u, rest. repeat split; [intros v []|exact Hb].
  - destruct Hin as [->|Hin]; [congruence|].
    destruct (IH (fun v Hv => Hall v (or_intror Hv)) Hin Hr)
      as (before & r0 & after & -> & Hbefore & Hr0).
    exists (u :: before), r0, after. repeat split; [|exact Hr0].
    intros v [<-|Hv]; [exact Hb|apply Hbefore; exact Hv].
Qed.

Lemma credentialsMatch_record (user pass : string) (u : value) :
  isUserRecord u = true ->
  (recordMatches user pass u /\ credentialsMatch user pass u = Normal true) \/
  (~ recordMatches user pass u /\ credentialsMatch user pass u = Normal false).
Proof.
  unfold isUserRecord, recordMatches, credentialsMatch, secretOf.
  destruct (get u "username") as [[| | | |name| |]|] eqn:Hname; try discriminate.
  destruct (get u "password") as [password|] eqn:Hpass; simpl; [|discriminate].
  destruct (call_toString password) as [secret|] eqn:Hsecret; simpl; [|discriminate].
  intros _.
  destruct (String.eqb (trim name) (trim user)) eqn:Ename.
  - destruct (String.eqb secret (trim pass)) eqn:Esecret.
    + left. split; [|reflexivity].
      exists name, secret. apply String.eqb_eq in Ename, Esecret. auto.
    + right. split; [|reflexivity].
      intros (n & s & Hn & _ & Hs & Heq). apply String.eqb_neq in Esecret. congruence.
  - right. split; [|reflexivity].
    intros (n & s & Hn & Heq & _). apply String.eqb_neq in Ename. congruence.
Qed.

(** A record accepted by the scan of [processLogin] is an object with a string
    [username]. *)
Lemma credentialsMatch_accepts (user pass : string) (u : value) :
  credentialsMatch user pass u = Normal true ->
  exists props name, u = VObj props /\ own_property "username" props = Some (VStr name).
Proof.
  unfold credentialsMatch.
  destruct u as [| | | | | |props]; try discriminate.
  unfold get. destruct (own_property "username" props) as [[| | | |name| |]|] eqn:E;
    simpl; try discriminate.
  intros _. exists props, name. split; [reflexivity|exact E].
Qed.

Lemma userFound_result (vaultData : value) (user pass : string) (r : value) :
  userFound vaultData user pass = Normal r ->
  r = VUndefined \/
  exists props name, r = VObj props /\ own_property "username" props = Some (VStr name).
Proof.
  unfold userFound, call_find. destruct vaultData; try discriminate.
  intros H. destruct (find_elem_found _ _ _ H) as [->|[_ Hp]]; [left; reflexivity|].
  right. exact (credentialsMatch_accepts _ _ _ Hp).
Qed.

Lemma userFound_first (records before after : list value) (r : value) (user pass : string) :
  records = before ++ r :: after ->
  Forall (fun u => isUserRecord u = true) records ->
  recordMatches user pass r ->
  (forall u, In u before -> ~ recordMatches user pass u) ->
  userFound (VArr records) user pass = Normal r.
Proof.
  intros -> Hwf Hr Hbefore. unfold userFound, call_find.
  rewrite Forall_forall in Hwf.
  apply find_elem_first.
  - intros u Hu.
    destruct (credentialsMatch_record user pass u) as [[Hm _]|[_ Hc]];
      [apply Hwf, in_or_app; left; exact Hu| |exact Hc].
    exfalso. exact (Hbefore u Hu Hm).
  - destruct (credentialsMatch_record user pass r) as [[_ Hc]|[Hm _]];
      [apply Hwf, in_or_app; right; left; reflexivity|exact Hc|].
    exfalso. exact (Hm Hr).
Qed.

Lemma own_credentials_match (r : value) (name secret : string) :
  get r "username" = Normal (VStr name) -> secretOf r = Normal secret ->
  trim secret = secret -> recordMatches (trim name) secret r.
Proof.
  intros Hn Hs Ht. exists name, secret. rewrite trim_idempotent, Ht. auto.
Qed.

(** ** Credential verification *)

(** C1, as the code has it. In a collection of records, take a record whose
    secret, as a string, has no surrounding whitespace. The scan called with
    the trimmed identity key and the string secret of that record returns the
    first record of the collection, in its order, whose trimmed identity key
    and whose string secret are those submitted; it is the record itself
    whenever no record before it has both. *)
Theorem userFound_own_credentials (records : list value) (r : value) (name secret : string) :
  Forall (fun u => isUserRecord u = true) records ->
  In r records ->
  get r "username" = Normal (VStr name) ->
  secretOf r = Normal secret ->
  trim secret = secret ->
  (exists before r0 after,
      records = before ++ r0 :: after /\
      recordMatches (trim name) secret r0 /\
      (forall u, In u before -> ~ recordMatches (trim name) secret u) /\
      userFound (VArr records) (trim name) secret = Normal r0) /\
  (forall before after,
      records = before ++ r :: after ->
      (forall u, In u before -> ~ recordMatches (trim name) secret u) ->
      userFound (VArr records) (trim name) secret = Normal r).
Proof.
  intros Hwf Hin Hn Hs Ht.
  pose proof (own_credentials_match r name secret Hn Hs Ht) as Hr.
  split.
  - assert (Hacc : credentialsMatch (trim name) secret r = Normal true).
    { destruct (credentialsMatch_record (trim name) secret r) as [[_ Hc]|[Hm _]];
        [rewrite Forall_forall in Hwf; apply Hwf; exact Hin|exact Hc|].
      exfalso. exact (Hm Hr). }
    destruct (first_accepted (credentialsMatch (trim name) secret) records r)
      as (before & r0 & after & Hsplit & Hbefore & Hr0); [|exact Hin|exact Hacc|].
    { intros u Hu. rewrite Forall_forall in Hwf.
      destruct (credentialsMatch_record (trim name) secret u (Hwf u Hu)) as [[_ Hc]|[_ Hc]];
        eexists; exact Hc. }
    assert (Hwf' := Hwf). rewrite Forall_forall in Hwf'.
    assert (Hm0 : recordMatches (trim name) secret r0).
    { destruct (credentialsMatch_record (trim name) secret r0) as [[Hm _]|[_ Hc]];
        [apply Hwf'; rewrite Hsplit; apply in_or_app; right; left; reflexivity
        |exact Hm|congruence]. }
    assert (Hnone : forall u, In u before -> ~ recordMatches (trim name) secret u).
    { intros u Hu Hm.
      destruct (credentialsMatch_record (trim name) secret u) as [[_ Hc]|[Hnm _]];
        [apply Hwf'; rewrite Hsplit; apply in_or_app; left; exact Hu| |exact (Hnm Hm)].
      rewrite (Hbefore u Hu) in Hc. discriminate. }
    exists before, r0, after. repeat split; try assumption.
    exact (userFound_first records before after r0 _ _ Hsplit Hwf Hm0 Hnone).
  - intros before after Hsplit Hnone.
    exact (userFound_first records before after r _ _ Hsplit Hwf Hr Hnone).
Qed.

(** ** Running [processLogin] *)

(** Runs the notifications of a branch and gathers them at the end of the
    trace. *)
Ltac settle_trace :=
  unfold showNotification, setLoadingState, emit; simpl;
  unfold appendTrace, loginRequest, vaultFault, accessDenied; simpl;
  rewrite <- ?app_assoc; reflexivity.

Lemma appendTrace_appendTrace (es1 es2 : list effect) (w : World) :
  appendTrace es2 (appendTrace es1 w) = appendTrace (es1 ++ es2) w.
Proof. unfold appendTrace; simpl. rewrite app_assoc. reflexivity. Qed.

Lemma credentialsMissing_true (user pass : string) :
  credentialsMissing user pass = true <-> user = EmptyString \/ pass = EmptyString.
Proof.
  unfold credentialsMissing; simpl. rewrite !negb_involutive, orb_true_iff, !String.eqb_eq.
  reflexivity.
Qed.

Lemma credentialsMissing_false (user pass : string) :
  credentialsMissing user pass = false <-> user <> EmptyString /\ pass <> EmptyString.
Proof.
  unfold credentialsMissing; simpl. rewrite !negb_involutive, orb_false_iff, !String.eqb_neq.
  reflexivity.
Qed.

Lemma processLogin_missing (user pass : string) outcome now ui (w : World) :
  credentialsMissing user pass = true ->
  processLogin user pass outcome now ui w =
  (Normal tt, appendTrace [ShowNotification "Security Alert: Credentials Required" "error"] w).
Proof.
  intros H. unfold processLogin, processLogin_begin, bind. rewrite H. reflexivity.
Qed.

Lemma processLogin_sent (user pass : string) outcome now ui (w : World) :
  credentialsMissing user pass = false ->
  processLogin user pass outcome now ui w =
  processLogin_resume outcome user pass now ui (appendTrace loginRequest w).
Proof.
  intros H. unfold processLogin, processLogin_begin, bind. rewrite H.
  unfold setLoadingState, emit, ret; simpl.
  f_equal. unfold appendTrace, loginRequest; simpl. rewrite <- !app_assoc. reflexivity.
Qed.

Lemma processLogin_resume_vault_fault outcome (user pass : string) now ui (w : World) e :
  fetchVault outcome = Throw e ->
  processLogin_resume outcome user pass now ui w = (Normal tt, appendTrace vaultFault w).
Proof.
  intros H. unfold processLogin_resume, try_catch, bind, lift. rewrite H.
  settle_trace.
Qed.

Lemma processLogin_resume_scan_fault outcome (user pass : string) now ui (w : World)
    vaultData e :
  fetchVault outcome = Normal vaultData ->
  userFound vaultData user pass = Throw e ->
  processLogin_resume outcome user pass now ui w = (Normal tt, appendTrace vaultFault w).
Proof.
  intros H1 H2. unfold processLogin_resume, try_catch, bind, lift. rewrite H1, H2.
  settle_trace.
Qed.

Lemma processLogin_resume_no_match outcome (user pass : string) now ui (w : World)
    vaultData r :
  fetchVault outcome = Normal vaultData ->
  userFound vaultData user pass = Normal r ->
  truthy r = false ->
  processLogin_resume outcome user pass now ui w = (Normal tt, appendTrace accessDenied w).
Proof.
  intros H1 H2 H3. unfold processLogin_resume, try_catch, bind, lift. rewrite H1, H2, H3.
  settle_trace.
Qed.

Lemma processLogin_resume_verified outcome (user pass : string) now ui (w : World)
    vaultData r :
  fetchVault outcome = Normal vaultData ->
  userFound vaultData user pass = Normal r ->
  truthy r = true ->
  activeSession (snd (processLogin_resume outcome user pass now ui w)) =
  mkSession true r (Some now).
Proof.
  intros H1 H2 H3. unfold processLogin_resume, try_catch, bind, lift. rewrite H1, H2, H3.
  unfold handleAuthSuccess, renderDashboard, bind, writeSession, readSession, emit, throw;
    simpl.
  destruct ui; destruct (accessGranted r); reflexivity.
Qed.

(** Whatever the request brings, a resumed login leaves the session as it
    was or sets its three fields at once. *)
Lemma processLogin_resume_session outcome (user pass : string) now ui (w : World) :
  activeSession (snd (processLogin_resume outcome user pass now ui w)) = activeSession w \/
  exists props name,
    own_property "username" props = Some (VStr name) /\
    activeSession (snd (processLogin_resume outcome user pass now ui w)) =
    mkSession true (VObj props) (Some now).
Proof.
  destruct (fetchVault outcome) as [vaultData|e] eqn:H1.
  - destruct (userFound vaultData user pass) as [r|e] eqn:H2.
    + destruct (userFound_result _ _ _ _ H2) as [->|(props & name & -> & Hp)].
      * left. erewrite processLogin_resume_no_match by (try eassumption; reflexivity).
        reflexivity.
      * right. exists props, name. split; [exact Hp|].
        eapply processLogin_resume_verified; [eassumption|eassumption|reflexivity].
    + left. erewrite processLogin_resume_scan_fault by eassumption. reflexivity.
  - left. erewrite processLogin_resume_vault_fault by eassumption. reflexivity.
Qed.

(** C2, as the code has it. In a collection of records none of which
    matches the submitted credentials (identity keys compared trimmed, the
    stored secret as a string with the submitted secret trimmed), the scan
    returns nothing; and a login attempt with both fields filled that reads
    this collection from the vault reports invalid credentials and leaves the
    session alone. *)
Theorem userFound_no_match (records : list value) (user pass : string) :
  Forall (fun u => isUserRecord u = true) records ->
  (forall u, In u records -> ~ recordMatches user pass u) ->
  userFound (VArr records) user pass = Normal VUndefined /\
  (user <> EmptyString -> pass <> EmptyString ->
   forall outcome now ui w,
     fetchVault outcome = Normal (VArr records) ->
     processLogin user pass outcome now ui w =
     (Normal tt, appendTrace (loginRequest ++ accessDenied) w)).
Proof.
  intros Hwf Hnone. rewrite Forall_forall in Hwf.
  assert (Hscan : userFound (VArr records) user pass = Normal VUndefined).
  { unfold userFound, call_find. apply find_elem_none. intros u Hu.
    destruct (credentialsMatch_record user pass u (Hwf u Hu)) as [[Hm _]|[_ Hc]];
      [exfalso; exact (Hnone u Hu Hm)|exact Hc]. }
  split; [exact Hscan|].
  intros Huser Hpass outcome now ui w Hvault.
  rewrite processLogin_sent by (apply credentialsMissing_false; split; assumption).
  rewrite (processLogin_resume_no_match _ _ _ _ _ _ _ _ Hvault Hscan eq_refl).
  rewrite appendTrace_appendTrace. reflexivity.
Qed.

Lemma login_verified_or_failed (user pass : string) (outcome : FetchOutcome) :
  LoginFailed user pass outcome \/ exists r, LoginVerified user pass outcome r.
Proof.
  destruct (credentialsMissing user pass) eqn:Hm; [left; apply failed_missing; exact Hm|].
  destruct (fetchVault outcome) as [vaultData|e] eqn:H1;
    [|left; eapply failed_vault; exact H1].
  destruct (userFound vaultData user pass) as [r|e] eqn:H2;
    [|left; eapply failed_scan; eassumption].
  destruct (userFound_result _ _ _ _ H2) as [->|(props & name & -> & _)].
  - left. eapply failed_no_match; eassumption.
  - right. exists (VObj props). econstructor; try eassumption. reflexivity.
Qed.

Lemma processLogin_failed_world (user pass : string) outcome now ui (w : World) :
  LoginFailed user pass outcome ->
  exists es, processLogin user pass outcome now ui w = (Normal tt, appendTrace es w).
Proof.
  intros H.
  destruct (credentialsMissing user pass) eqn:Hm.
  { eexists. apply processLogin_missing. exact Hm. }
  rewrite processLogin_sent by exact Hm.
  destruct H as [outcome Hm'|outcome e H1|outcome vaultData e H1 H2|outcome vaultData H1 H2].
  - congruence.
  - erewrite processLogin_resume_vault_fault by eassumption.
    rewrite appendTrace_appendTrace. eexists; reflexivity.
  - erewrite processLogin_resume_scan_fault by eassumption.
    rewrite appendTrace_appendTrace. eexists; reflexivity.
  - erewrite processLogin_resume_no_match by (try eassumption; reflexivity).
    rewrite appendTrace_appendTrace. eexists; reflexivity.
Qed.

(** ** The session under [processLogin] *)

(** C3. A login attempt that verifies a record sets the authenticated flag,
    the held record and the sync time together, and a failed attempt (a
    field left empty, the vault unreadable, the scan broken off, no record
    matching) leaves the session exactly as it was; so a failed attempt
    started with no record held ends with no record held. *)
Theorem processLogin_atomic (user pass : string) (outcome : FetchOutcome) (now : Z)
    (ui : UiOutcome) (w : World) :
  (forall r, LoginVerified user pass outcome r ->
     activeSession (snd (processLogin user pass outcome now ui w)) =
     mkSession true r (Some now)) /\
  (LoginFailed user pass outcome ->
     activeSession (snd (processLogin user pass outcome now ui w)) = activeSession w /\
     (userData (activeSession w) = VNull ->
      userData (activeSession (snd (processLogin user pass outcome now ui w))) = VNull)).
Proof.
  split.
  - intros r [vaultData o r' Hm H1 H2 H3].
    rewrite processLogin_sent by exact Hm.
    apply (processLogin_resume_verified _ _ _ _ _ _ _ _ H1 H2 H3).
  - intros H. destruct (processLogin_failed_world user pass outcome now ui w H) as [es ->].
    split; [reflexivity|intros Hnull; exact Hnull].
Qed.

Lemma vault_unreadable_throws (outcome : FetchOutcome) :
  VaultUnreadable outcome ->
  (exists e, fetchVault outcome = Throw e) \/
  (exists v, fetchVault outcome = Normal v /\ forall p, call_find v p = Throw TypeError).
Proof.
  intros [|st|st result H].
  - left. eexists; reflexivity.
  - left. eexists; reflexivity.
  - unfold fetchVault; simpl.
    destruct (get result "userDatabase") as [v|e] eqn:E; [right|left; eexists; reflexivity].
    exists v. split; [reflexivity|].
    destruct v; try reflexivity. exfalso. apply (H elems). reflexivity.
Qed.

Lemma fetchVault_ignores_status (st st' : nat) (b : option value) :
  fetchVault (Resolved (mkResponse st b)) = fetchVault (Resolved (mkResponse st' b)).
Proof. reflexivity. Qed.

(** C4, as the code has it. The record-store read fails when the request is
    rejected or the body is not JSON, and the scan that follows fails when
    [userDatabase] is absent or not an array; the status of the response is
    not among the causes. A login attempt with both fields filled reports
    each of these failures as the one vault error and leaves the session
    alone. *)
Theorem processLogin_vault_unavailable (user pass : string) (outcome : FetchOutcome)
    (now : Z) (ui : UiOutcome) (w : World) :
  user <> EmptyString -> pass <> EmptyString ->
  VaultUnreadable outcome ->
  (exists e, cbind (fetchVault outcome) (fun v => userFound v user pass) = Throw e) /\
  processLogin user pass outcome now ui w =
  (Normal tt, appendTrace (loginRequest ++ vaultFault) w).
Proof.
  intros Huser Hpass Hv.
  rewrite processLogin_sent by (apply credentialsMissing_false; split; assumption).
  destruct (vault_unreadable_throws outcome Hv) as [[e H]|(v & H & Hfind)].
  - split; [exists e; rewrite H; reflexivity|].
    erewrite processLogin_resume_vault_fault by eassumption.
    rewrite appendTrace_appendTrace. reflexivity.
  - split; [exists TypeError; rewrite H; apply Hfind|].
    erewrite processLogin_resume_scan_fault by (try eassumption; apply Hfind).
    rewrite appendTrace_appendTrace. reflexivity.
Qed.

Lemma fetchCount_appendTrace (es : list effect) (w : World) :
  fetchCount (appendTrace es w) =
  fetchCount w + length (filter (fun e => match e with Fetch _ => true | _ => false end) es).
Proof. unfold fetchCount, appendTrace; simpl. rewrite filter_app, length_app. reflexivity. Qed.

(** C9. When either field is empty, a login attempt makes no network call,
    tells the user that credentials are required, and leaves the session and
    the suspended calls as they were. *)
Theorem processLogin_requires_credentials (user pass : string) (outcome : FetchOutcome)
    (now : Z) (ui : UiOutcome) (w : World) :
  user = EmptyString \/ pass = EmptyString ->
  processLogin user pass outcome now ui w =
  (Normal tt, appendTrace [ShowNotification "Security Alert: Credentials Required" "error"] w) /\
  step w (LoginSubmitted user pass) =
  appendTrace [ShowNotification "Security Alert: Credentials Required" "error"] w /\
  fetchCount (snd (processLogin user pass outcome now ui w)) = fetchCount w /\
  activeSession (snd (processLogin user pass outcome now ui w)) = activeSession w.
Proof.
  intros H. apply credentialsMissing_true in H.
  rewrite (processLogin_missing user pass outcome now ui w H).
  repeat split.
  - unfold step, processLogin_begin, bind. rewrite H. reflexivity.
  - simpl snd. rewrite fetchCount_appendTrace. simpl. lia.
Qed.

(** ** Running the interval callback *)

Lemma autoSync_begin_anonymous (w : World) :
  isAuthenticated (activeSession w) = false -> autoSync_begin w = (Normal false, w).
Proof. intros H. unfold autoSync_begin, bind, readSession. rewrite H. reflexivity. Qed.

Lemma autoSync_begin_authenticated (w : World) :
  isAuthenticated (activeSession w) = true ->
  autoSync_begin w = (Normal true, appendTrace [Fetch API_URL] w).
Proof. intros H. unfold autoSync_begin, bind, readSession. rewrite H. reflexivity. Qed.

(** No exception leaves the callback, and all it can do to the session is
    to put in [userData] a record the scan of line 169 accepted. *)
Lemma autoSync_resume_cases (outcome : FetchOutcome) (ui : UiOutcome) (w : World) :
  fst (autoSync_resume outcome ui w) = Normal tt /\
  (activeSession (snd (autoSync_resume outcome ui w)) = activeSession w \/
   exists elems r,
     fetchVault outcome = Normal (VArr elems) /\
     find_elem (sameUsername (activeSession w)) elems = Normal r /\
     truthy r = true /\
     activeSession (snd (autoSync_resume outcome ui w)) = set_userData r (activeSession w)).
Proof.
  unfold autoSync_resume, try_catch, bind, lift, readSession.
  destruct (fetchVault outcome) as [vaultData|e] eqn:H1; [|split; [reflexivity|left; reflexivity]].
  destruct vaultData as [| | | | |elems|]; simpl;
    try (split; [reflexivity|left; reflexivity]).
  destruct (find_elem (sameUsername (activeSession w)) elems) as [r|e] eqn:H2;
    [|split; [reflexivity|left; reflexivity]].
  destruct (truthy r) eqn:H3; [|split; [reflexivity|left; reflexivity]].
  unfold renderDashboard, writeSession, bind, readSession, emit, throw, ret; simpl.
  destruct ui; simpl; (split; [reflexivity|right; exists elems, r; auto]).
Qed.

Lemma sameUsername_accepts (s : Session) (u : value) :
  sameUsername s u = Normal true ->
  exists name held,
    get u "username" = Normal name /\ get (userData s) "username" = Normal held /\
    strict_equals name held = true.
Proof.
  unfold sameUsername.
  destruct (get u "username") as [name|]; simpl; [|discriminate].
  destruct (get (userData s) "username") as [held|]; simpl; [|discriminate].
  intros H. exists name, held. injection H as H. auto.
Qed.

Lemma autoSync_resume_miss (outcome : FetchOutcome) (ui : UiOutcome) (w : World) :
  SyncMiss (activeSession w) outcome ->
  activeSession (snd (autoSync_resume outcome ui w)) = activeSession w.
Proof.
  intros Hmiss.
  destruct (autoSync_resume_cases outcome ui w) as [_ [H|(elems & r & H1 & H2 & H3 & _)]];
    [exact H|exfalso].
  destruct (find_elem_found _ _ _ H2) as [->|[Hin Hacc]]; [discriminate|].
  destruct (sameUsername_accepts _ _ Hacc) as (name & held & Hn & Hh & Heq).
  destruct Hmiss as [outcome Hu|st result elems' Hget Hnone].
  - destruct (vault_unreadable_throws outcome Hu) as [[e He]|(v & Hv & Hfind)];
      [congruence|].
    rewrite H1 in Hv. injection Hv as <-. specialize (Hfind (fun _ => Normal true)).
    destruct elems; discriminate.
  - unfold fetchVault in H1; simpl in H1. rewrite Hget in H1. injection H1 as ->.
    rewrite (Hnone r name held Hin Hn Hh) in Heq. discriminate.
Qed.

Lemma autoSync_resume_keeps (outcome : FetchOutcome) (ui : UiOutcome) (w : World) :
  isAuthenticated (activeSession (snd (autoSync_resume outcome ui w))) =
  isAuthenticated (activeSession w) /\
  lastSync (activeSession (snd (autoSync_resume outcome ui w))) = lastSync (activeSession w).
Proof.
  destruct (autoSync_resume_cases outcome ui w) as [_ [->|(elems & r & _ & _ & _ & ->)]];
    split; reflexivity.
Qed.

(** ** The reconciliation loop *)

(** C5. A tick taken while the session is anonymous makes no network call
    and changes nothing: the page after it is the page before it, effects
    and suspended calls included. *)
Theorem autoSync_anonymous_idle (w : World) :
  isAuthenticated (activeSession w) = false ->
  step w TimerFired = w /\
  (forall outcome ui, autoSync outcome ui w = (Normal tt, w)) /\
  fetchCount (step w TimerFired) = fetchCount w.
Proof.
  intros H.
  assert (Hstep : step w TimerFired = w).
  { unfold step. rewrite (autoSync_begin_anonymous w H). reflexivity. }
  repeat split.
  - exact Hstep.
  - intros outcome ui. unfold autoSync, bind. rewrite (autoSync_begin_anonymous w H).
    reflexivity.
  - rewrite Hstep. reflexivity.
Qed.

(** C6. A tick taken while authenticated whose request fails, whose body
    cannot be read, or whose collection holds no record with the held
    identity key ends normally, whenever its request settles, and leaves the
    session, the held record with it, exactly as it was; the session is
    still authenticated, and the tick after it sends its request. *)
Theorem autoSync_miss_keeps_record (outcome : FetchOutcome) (ui : UiOutcome) (w : World) :
  isAuthenticated (activeSession w) = true ->
  SyncMiss (activeSession w) outcome ->
  fst (autoSync outcome ui w) = Normal tt /\
  activeSession (snd (autoSync outcome ui w)) = activeSession w /\
  activeSession (step w (SyncFetchSettled outcome ui)) = activeSession w /\
  fst (autoSync_begin (snd (autoSync outcome ui w))) = Normal true /\
  fetchCount (step (snd (autoSync outcome ui w)) TimerFired) =
  S (fetchCount (snd (autoSync outcome ui w))).
Proof.
  intros Hauth Hmiss.
  assert (Hrun : autoSync outcome ui w =
                 autoSync_resume outcome ui (appendTrace [Fetch API_URL] w)).
  { unfold autoSync, bind. rewrite (autoSync_begin_authenticated w Hauth). reflexivity. }
  assert (Hsession : activeSession (snd (autoSync outcome ui w)) = activeSession w).
  { rewrite Hrun. apply (autoSync_resume_miss outcome ui (appendTrace [Fetch API_URL] w)).
    exact Hmiss. }
  assert (Hauth' : isAuthenticated (activeSession (snd (autoSync outcome ui w))) = true).
  { rewrite Hsession. exact Hauth. }
  repeat split.
  - rewrite Hrun. apply autoSync_resume_cases.
  - exact Hsession.
  - unfold step. destruct (syncsInFlight w) as [|n]; [reflexivity|].
    apply (autoSync_resume_miss outcome ui (with_syncsInFlight n w)). exact Hmiss.
  - rewrite (autoSync_begin_authenticated _ Hauth'). reflexivity.
  - unfold step. rewrite (autoSync_begin_authenticated _ Hauth').
    unfold with_syncsInFlight, fetchCount; simpl.
    rewrite filter_app, length_app. simpl. lia.
Qed.

(** ** The session invariant *)

Lemma get_string_username (r : value) (name : string) :
  get r "username" = Normal (VStr name) ->
  exists props, r = VObj props /\ own_property "username" props = Some (VStr name).
Proof.
  destruct r as [| | | | | |props]; simpl; try discriminate.
  destruct (own_property "username" props) as [v|] eqn:E; [|discriminate].
  intros H. injection H as ->. exists props. split; [reflexivity|exact E].
Qed.

Lemma strict_equals_string (a : value) (held : string) :
  strict_equals a (VStr held) = true -> a = VStr held.
Proof.
  destruct a; simpl; try discriminate. intros H. apply String.eqb_eq in H. congruence.
Qed.

Lemma processLogin_begin_session (user pass : string) (w : World) :
  activeSession (snd (processLogin_begin user pass w)) = activeSession w.
Proof. unfold processLogin_begin. destruct (credentialsMissing user pass); reflexivity. Qed.

Lemma autoSync_begin_session (w : World) :
  activeSession (snd (autoSync_begin w)) = activeSession w.
Proof.
  unfold autoSync_begin, bind, readSession.
  destruct (isAuthenticated (activeSession w)); reflexivity.
Qed.

Lemma autoSync_resume_invariant (outcome : FetchOutcome) (ui : UiOutcome) (w : World) :
  SessionInvariant (activeSession w) ->
  SessionInvariant (activeSession (snd (autoSync_resume outcome ui w))).
Proof.
  intros Hinv.
  destruct (autoSync_resume_cases outcome ui w) as [_ [->|(elems & r & _ & H2 & H3 & ->)]];
    [exact Hinv|].
  destruct (find_elem_found _ _ _ H2) as [->|[_ Hacc]]; [discriminate|].
  destruct (sameUsername_accepts _ _ Hacc) as (name & held & Hn & Hh & Heq).
  destruct Hinv as [(_ & Hnull & _)|(Hauth & (props & h & Hu & Hp) & Ht)].
  - rewrite Hnull in Hh. discriminate.
  - right. rewrite Hu in Hh. simpl in Hh. rewrite Hp in Hh. injection Hh as <-.
    apply strict_equals_string in Heq. subst name.
    destruct (get_string_username r h Hn) as (props' & -> & Hp').
    repeat split; [exact Hauth|exists props', h; split; [reflexivity|exact Hp']|exact Ht].
Qed.

Lemma step_invariant (w : World) (ev : event) :
  SessionInvariant (activeSession w) -> SessionInvariant (activeSession (step w ev)).
Proof.
  intros Hinv. destruct ev as [user pass|outcome user pass now ui| |outcome ui|]; unfold step.
  - pose proof (processLogin_begin_session user pass w) as H.
    destruct (processLogin_begin user pass w) as [[[|]|e] w']; simpl in *; rewrite H; exact Hinv.
  - destruct (loginsInFlight w) as [|n]; [exact Hinv|].
    destruct (processLogin_resume_session outcome user pass now ui (with_loginsInFlight n w))
      as [->|(props & name & Hp & ->)]; [exact Hinv|].
    right. repeat split; [exists props, name; split; [reflexivity|exact Hp]|eexists; reflexivity].
  - pose proof (autoSync_begin_session w) as H.
    destruct (autoSync_begin w) as [[[|]|e] w']; simpl in *; rewrite H; exact Hinv.
  - destruct (syncsInFlight w) as [|n]; [exact Hinv|].
    apply (autoSync_resume_invariant outcome ui (with_syncsInFlight n w)). exact Hinv.
  - left. repeat split.
Qed.

Lemma run_invariant (evs : list event) (w : World) :
  SessionInvariant (activeSession w) -> SessionInvariant (activeSession (run w evs)).
Proof.
  revert w. induction evs as [|ev rest IH]; intros w Hinv; [exact Hinv|].
  apply (IH (step w ev)). apply step_invariant. exact Hinv.
Qed.

(** C10. After any sequence of login attempts, timer ticks, settled requests
    and logouts from the initial page, the authenticated flag is set exactly
    when a record is held, and whenever it is set the sync time is set. *)
Theorem session_invariant (evs : list event) :
  (isAuthenticated (activeSession (run initialWorld evs)) = true <->
   userData (activeSession (run initialWorld evs)) <> VNull) /\
  (isAuthenticated (activeSession (run initialWorld evs)) = true ->
   lastSync (activeSession (run initialWorld evs)) <> None) /\
  SessionInvariant (activeSession (run initialWorld evs)).
Proof.
  assert (Hinv : SessionInvariant (activeSession (run initialWorld evs))).
  { apply run_invariant. left. repeat split. }
  split; [|split; [|exact Hinv]].
  - destruct Hinv as [(Ha & Hu & _)|(Ha & (props & name & Hu & _) & _)];
      rewrite Ha, Hu; split; intros H; congruence.
  - destruct Hinv as [(Ha & _)|(_ & _ & (t & Ht))]; rewrite ?Ha, ?Ht; intros H; congruence.
Qed.

(** ** Ticks in flight *)

Lemma autoSync_resume_counters (outcome : FetchOutcome) (ui : UiOutcome) (w : World) :
  syncsInFlight (snd (autoSync_resume outcome ui w)) = syncsInFlight w /\
  loginsInFlight (snd (autoSync_resume outcome ui w)) = loginsInFlight w.
Proof.
  unfold autoSync_resume, try_catch, bind, lift, readSession.
  destruct (fetchVault outcome) as [vaultData|e]; [|split; reflexivity].
  destruct vaultData as [| | | | |elems|]; simpl; try (split; reflexivity).
  destruct (find_elem (sameUsername (activeSession w)) elems) as [r|e];
    [|split; reflexivity].
  destruct (truthy r); [|split; reflexivity].
  unfold renderDashboard, writeSession, bind, readSession, emit, throw, ret; simpl.
  destruct ui; split; reflexivity.
Qed.

Lemma autoSync_resume_hit (st : nat) (result : value) (ui : UiOutcome) (w : World)
    (before after : list value) (r : value) (h : string) :
  get (userData (activeSession w)) "username" = Normal (VStr h) ->
  get result "userDatabase" = Normal (VArr (before ++ r :: after)) ->
  (forall u, In u before -> exists name, get u "username" = Normal name /\ name <> VStr h) ->
  get r "username" = Normal (VStr h) ->
  autoSync_resume (Resolved (mkResponse st (Some result))) ui w =
  (Normal tt,
   {| activeSession := set_userData r (activeSession w);
      trace := trace w ++
               [RenderDashboard r;
                match ui with
                | UiCompletes =>
                    ConsoleLog "[MDB-SECURITY] Vault Sync Complete. Balance Updated."
                | UiThrows => ConsoleWarn "Sync temporarily interrupted."
                end];
      loginsInFlight := loginsInFlight w; syncsInFlight := syncsInFlight w |}).
Proof.
  intros Hheld Hvault Hbefore Hr.
  assert (Hfind : find_elem (sameUsername (activeSession w)) (before ++ r :: after) =
                  Normal r).
  { apply find_elem_first.
    - intros u Hu. destruct (Hbefore u Hu) as (name & Hn & Hneq).
      unfold sameUsername. rewrite Hn, Hheld. simpl.
      destruct (strict_equals name (VStr h)) eqn:E; [|reflexivity].
      exfalso. apply Hneq. apply strict_equals_string. exact E.
    - unfold sameUsername. rewrite Hr, Hheld. simpl. rewrite String.eqb_refl. reflexivity. }
  destruct (get_string_username r h Hr) as (props & -> & _).
  unfold autoSync_resume, try_catch, bind, lift, readSession, fetchVault. simpl.
  rewrite Hvault. simpl. rewrite Hfind. simpl.
  unfold renderDashboard, writeSession, bind, readSession, emit, throw, ret; simpl.
  destruct ui; simpl; rewrite <- ?app_assoc; reflexivity.
Qed.

(** C8, as the code has it. The timer neither skips nor queues: a tick taken
    while authenticated sends its own request at once and joins the ticks
    that still wait for theirs, however many there are. Each tick that waits
    applies the result of its own call when that call settles, to the session
    as it is then: one tick fewer waits; an unreadable vault or a collection
    without the held identity key leaves the session as it is; and the first
    fetched record with the held identity key replaces the held record and is
    drawn. *)
Theorem autoSync_ticks_overlap (w : World) :
  isAuthenticated (activeSession w) = true ->
  (syncsInFlight (step w TimerFired) = S (syncsInFlight w) /\
   trace (step w TimerFired) = trace w ++ [Fetch API_URL] /\
   activeSession (step w TimerFired) = activeSession w) /\
  (forall n, syncsInFlight w = S n ->
     (forall outcome ui, syncsInFlight (step w (SyncFetchSettled outcome ui)) = n) /\
     (forall outcome ui,
        SyncMiss (activeSession w) outcome ->
        activeSession (step w (SyncFetchSettled outcome ui)) = activeSession w) /\
     (forall st result ui before r after h,
        get (userData (activeSession w)) "username" = Normal (VStr h) ->
        get result "userDatabase" = Normal (VArr (before ++ r :: after)) ->
        (forall u, In u before ->
           exists name, get u "username" = Normal name /\ name <> VStr h) ->
        get r "username" = Normal (VStr h) ->
        activeSession
          (step w (SyncFetchSettled (Resolved (mkResponse st (Some result))) ui)) =
        set_userData r (activeSession w) /\
        In (RenderDashboard r)
           (trace (step w (SyncFetchSettled (Resolved (mkResponse st (Some result))) ui))))).
Proof.
  intros H. split.
  - unfold step. rewrite (autoSync_begin_authenticated w H). repeat split.
  - intros n Hn. repeat split.
    + intros outcome ui. unfold step. rewrite Hn.
      rewrite (proj1 (autoSync_resume_counters outcome ui (with_syncsInFlight n w))).
      reflexivity.
    + intros outcome ui Hmiss. unfold step. rewrite Hn.
      apply (autoSync_resume_miss outcome ui (with_syncsInFlight n w)). exact Hmiss.
    + unfold step. rewrite Hn.
      rewrite (autoSync_resume_hit st result ui (with_syncsInFlight n w) before after r h);
        try assumption.
      reflexivity.
    + unfold step. rewrite Hn.
      rewrite (autoSync_resume_hit st result ui (with_syncsInFlight n w) before after r h);
        try assumption.
      simpl. apply in_or_app. right. left. reflexivity.
Qed.

(** ** A sync that finds the held record *)

Lemma autoSync_resume_found (outcome : FetchOutcome) (ui : UiOutcome) (w : World)
    (before after : list value) (r : value) :
  SessionInvariant (activeSession w) ->
  fetchVault outcome = Normal (VArr (before ++ r :: after)) ->
  (forall u, In u before -> sameUsername (activeSession w) u = Normal false) ->
  sameUsername (activeSession w) r = Normal true ->
  activeSession (snd (autoSync_resume outcome ui w)) = set_userData r (activeSession w) /\
  In (RenderDashboard r) (trace (snd (autoSync_resume outcome ui w))).
Proof.
  intros Hinv Hvault Hbefore Hr.
  pose proof (find_elem_first _ before after r Hbefore Hr) as Hfind.
  assert (Htruthy : truthy r = true).
  { destruct (sameUsername_accepts _ _ Hr) as (name & held & Hn & Hh & Heq).
    destruct Hinv as [(_ & Hnull & _)|(_ & (props & h & Hu & Hp) & _)].
    - rewrite Hnull in Hh. discriminate.
    - rewrite Hu in Hh. simpl in Hh. rewrite Hp in Hh. injection Hh as <-.
      apply strict_equals_string in Heq. subst name.
      destruct (get_string_username r h Hn) as (props' & -> & _). reflexivity. }
  unfold autoSync_resume, try_catch, bind, lift, readSession. rewrite Hvault. simpl.
  rewrite Hfind, Htruthy.
  unfold renderDashboard, writeSession, bind, readSession, emit, throw, ret; simpl.
  destruct ui; simpl; (split; [reflexivity|]); apply in_or_app;
    left; apply in_or_app; right; left; reflexivity.
Qed.

(** C7, where the code departs from it. Alice is logged in at time 1000 and
    her balance is then changed in the vault. The tick that fetches the
    changed record puts it in the session and has the dashboard drawn again
    from it, with the authenticated flag untouched; but [lastSync] still
    holds the time of the login: line 172 writes [userData] alone, where
    [handleAuthSuccess] writes [lastSync] next to it. *)
Theorem autoSync_found_leaves_lastSync :
  lastSync (activeSession aliceLoggedIn) = Some 1000%Z /\
  activeSession
    (run aliceLoggedIn
       [TimerFired; SyncFetchSettled (vaultResponse 200 [bob; aliceCredited]) UiCompletes]) =
  {| isAuthenticated := true; userData := aliceCredited; lastSync := Some 1000%Z |} /\
  trace
    (run aliceLoggedIn
       [TimerFired; SyncFetchSettled (vaultResponse 200 [bob; aliceCredited]) UiCompletes]) =
  trace aliceLoggedIn ++
  [Fetch API_URL; RenderDashboard aliceCredited;
   ConsoleLog "[MDB-SECURITY] Vault Sync Complete. Balance Updated."].
Proof. repeat split. Qed.

(** ** The theorems on the vault of the scenario *)

Lemma bob_is_not_alice (pass : string) : ~ recordMatches "alice" pass bob.
Proof.
  intros (n & s & Hn & Ht & _). simpl in Hn. injection Hn as <-.
  vm_compute in Ht. discriminate.
Qed.

Lemma userFound_own_credentials_witness :
  userFound (VArr [bob; alice]) (trim "alice") "1234" = Normal alice.
Proof.
  refine (proj2 (userFound_own_credentials [bob; alice] alice "alice" "1234" _ _ _ _ _)
            [bob] [] eq_refl _).
  - repeat constructor.
  - simpl; auto.
  - reflexivity.
  - reflexivity.
  - reflexivity.
  - intros u [<-|[]]. apply bob_is_not_alice.
Defined.

(** C1 fails on a secret stored with surrounding whitespace: the scan trims
    what was submitted and not what is stored, so the record's own key and
    secret find nothing. *)
Lemma userFound_padded_secret_counterexample :
  Forall (fun u => isUserRecord u = true) [carol] /\ In carol [carol] /\
  get carol "username" = Normal (VStr "carol") /\
  secretOf carol = Normal " 1234" /\
  userFound (VArr [carol]) (trim "carol") " 1234" = Normal VUndefined /\
  userFound (VArr [carol]) (trim "carol") " 1234" <> Normal carol.
Proof.
  repeat split; [repeat constructor|left; reflexivity|discriminate].
Qed.

Lemma userFound_no_match_witness :
  userFound (VArr [alice; bob]) "alice" "wrong" = Normal VUndefined /\
  processLogin "alice" "wrong" (vaultResponse 200 [alice; bob]) 1000 UiCompletes initialWorld =
  (Normal tt, appendTrace (loginRequest ++ accessDenied) initialWorld).
Proof.
  assert (Hwf : Forall (fun u => isUserRecord u = true) [alice; bob]) by (repeat constructor).
  assert (Hnone : forall u, In u [alice; bob] -> ~ recordMatches "alice" "wrong" u).
  { intros u [<-|[<-|[]]]; [|apply bob_is_not_alice].
    intros (n & s & _ & _ & Hs & Heq). vm_compute in Hs, Heq. congruence. }
  destruct (userFound_no_match [alice; bob] "alice" "wrong" Hwf Hnone) as [Hscan Hlogin].
  split; [exact Hscan|].
  apply Hlogin; [discriminate|discriminate|reflexivity].
Defined.

(** C2 fails on an empty field: no record matches, yet the attempt ends at
    the guard of line 51 with its own message, before any invalid-credentials
    report. *)
Lemma processLogin_empty_field_counterexample :
  Forall (fun u => isUserRecord u = true) [alice] /\
  (forall u, In u [alice] -> ~ recordMatches EmptyString "1234" u) /\
  userFound (VArr [alice]) EmptyString "1234" = Normal VUndefined /\
  fetchVault (vaultResponse 200 [alice]) = Normal (VArr [alice]) /\
  trace (snd (processLogin EmptyString "1234" (vaultResponse 200 [alice]) 1000 UiCompletes
                initialWorld)) =
  [ShowNotification "Security Alert: Credentials Required" "error"] /\
  ~ In (ShowNotification "Access Denied: Invalid Authorization" "error")
      (trace (snd (processLogin EmptyString "1234" (vaultResponse 200 [alice]) 1000 UiCompletes
                     initialWorld))).
Proof.
  repeat split; [repeat constructor| | ].
  - intros u [<-|[]] (n & s & Hn & Ht & _). simpl in Hn. injection Hn as <-.
    vm_compute in Ht. discriminate.
  - intros [H|[]]. discriminate.
Qed.

Lemma processLogin_atomic_witness :
  activeSession (snd (processLogin "alice" "1234" (vaultResponse 200 [bob; alice]) 1000 UiThrows
                        initialWorld)) =
  mkSession true alice (Some 1000%Z) /\
  activeSession (snd (processLogin "alice" "wrong" (vaultResponse 200 [bob; alice]) 1000
                        UiCompletes initialWorld)) =
  activeSession initialWorld.
Proof.
  split.
  - apply (proj1 (processLogin_atomic "alice" "1234" (vaultResponse 200 [bob; alice]) 1000
                    UiThrows initialWorld)).
    apply login_verified with (vaultData := VArr [bob; alice]); reflexivity.
  - apply (proj2 (processLogin_atomic "alice" "wrong" (vaultResponse 200 [bob; alice]) 1000
                    UiCompletes initialWorld)).
    apply failed_no_match with (vaultData := VArr [bob; alice]); reflexivity.
Defined.

Lemma processLogin_vault_unavailable_witness :
  processLogin "alice" "1234" (Resolved (mkResponse 503 None)) 1000 UiCompletes initialWorld =
  (Normal tt, appendTrace (loginRequest ++ vaultFault) initialWorld).
Proof.
  apply (proj2 (processLogin_vault_unavailable "alice" "1234" (Resolved (mkResponse 503 None))
                  1000 UiCompletes initialWorld
                  ltac:(discriminate) ltac:(discriminate) (unreadable_not_json 503))).
Defined.

(** C4 fails on a response of non-success status that carries a collection:
    the read does not fail, and the attempt logs Alice in. *)
Lemma processLogin_error_status_counterexample :
  fetchVault (vaultResponse 500 [alice]) = Normal (VArr [alice]) /\
  processLogin "alice" "1234" (vaultResponse 500 [alice]) 1000 UiCompletes initialWorld =
  (Normal tt,
   {| activeSession := mkSession true alice (Some 1000%Z);
      trace := loginRequest ++ [ShowDashboard; RenderDashboard alice];
      loginsInFlight := 0; syncsInFlight := 0 |}).
Proof. split; reflexivity. Qed.

Lemma autoSync_anonymous_idle_witness :
  step initialWorld TimerFired = initialWorld /\
  autoSync Rejected UiCompletes initialWorld = (Normal tt, initialWorld).
Proof.
  destruct (autoSync_anonymous_idle initialWorld eq_refl) as (Hstep & Hrun & _).
  split; [exact Hstep|apply Hrun].
Defined.

Lemma autoSync_miss_keeps_record_witness :
  activeSession (snd (autoSync (vaultResponse 200 [bob]) UiCompletes aliceLoggedIn)) =
  activeSession aliceLoggedIn.
Proof.
  refine (proj1 (proj2 (autoSync_miss_keeps_record (vaultResponse 200 [bob]) UiCompletes
                          aliceLoggedIn eq_refl _))).
  apply miss_absent with (elems := [bob]); [reflexivity|].
  intros u name held [<-|[]] Hn Hh. vm_compute in Hn, Hh.
  injection Hn as <-. injection Hh as <-. reflexivity.
Defined.

Lemma autoSync_ticks_overlap_witness :
  syncsInFlight (step (step aliceLoggedIn TimerFired) TimerFired) = 2 /\
  syncsInFlight
    (step (step (step aliceLoggedIn TimerFired) TimerFired)
       (SyncFetchSettled (vaultResponse 200 [bob; aliceCredited]) UiCompletes)) = 1 /\
  activeSession
    (step (step (step aliceLoggedIn TimerFired) TimerFired)
       (SyncFetchSettled (vaultResponse 200 [bob; aliceCredited]) UiCompletes)) =
  set_userData aliceCredited (activeSession (step (step aliceLoggedIn TimerFired) TimerFired)) /\
  activeSession
    (step (step (step aliceLoggedIn TimerFired) TimerFired)
       (SyncFetchSettled (vaultResponse 503 []) UiCompletes)) =
  activeSession (step (step aliceLoggedIn TimerFired) TimerFired).
Proof.
  destruct (autoSync_ticks_overlap (step aliceLoggedIn TimerFired) eq_refl)
    as [(Hjoin & _) _].
  destruct (autoSync_ticks_overlap (step (step aliceLoggedIn TimerFired) TimerFired) eq_refl)
    as [_ Hsettle].
  destruct (Hsettle 1 eq_refl) as (Hcount & Hmiss & Hhit).
  split; [rewrite Hjoin; reflexivity|].
  split; [apply Hcount|].
  split.
  - refine (proj1 (Hhit 200 (VObj [("userDatabase", VArr [bob; aliceCredited])]) UiCompletes
                     [bob] aliceCredited [] "alice" eq_refl eq_refl _ eq_refl)).
    intros u [<-|[]]. eexists. split; [reflexivity|discriminate].
  - apply Hmiss. apply miss_absent with (elems := []); [reflexivity|].
    intros u name held [].
Defined.

(** C8 fails once a request outlasts the period: two ticks in a row after
    the login, and two interval callbacks wait for their requests together. *)
Lemma ticks_never_overlap_counterexample :
  syncsInFlight
    (run initialWorld
       [LoginSubmitted "alice" "1234";
        LoginFetchSettled (vaultResponse 200 [bob; alice]) "alice" "1234" 1000 UiCompletes;
        TimerFired; TimerFired]) = 2 /\
  ~ (forall evs, syncsInFlight (run initialWorld evs) <= 1).
Proof.
  split; [reflexivity|].
  intros H.
  specialize (H [LoginSubmitted "alice" "1234";
                 LoginFetchSettled (vaultResponse 200 [bob; alice]) "alice" "1234" 1000
                   UiCompletes;
                 TimerFired; TimerFired]).
  vm_compute in H. lia.
Qed.

Lemma processLogin_requires_credentials_witness :
  processLogin "alice" EmptyString (vaultResponse 200 [alice]) 1000 UiCompletes aliceLoggedIn =
  (Normal tt,
   appendTrace [ShowNotification "Security Alert: Credentials Required" "error"] aliceLoggedIn).
Proof.
  apply (proj1 (processLogin_requires_credentials "alice" EmptyString (vaultResponse 200 [alice])
                  1000 UiCompletes aliceLoggedIn (or_intror eq_refl))).
Defined.

Lemma session_invariant_witness :
  userData (activeSession (run initialWorld
    [LoginSubmitted "alice" "1234";
     LoginFetchSettled (vaultResponse 200 [bob; alice]) "alice" "1234" 1000 UiCompletes;
     TimerFired; SyncFetchSettled (vaultResponse 200 [aliceCredited]) UiThrows])) <> VNull.
Proof.
  apply (proj1 (session_invariant
    [LoginSubmitted "alice" "1234";
     LoginFetchSettled (vaultResponse 200 [bob; alice]) "alice" "1234" 1000 UiCompletes;
     TimerFired; SyncFetchSettled (vaultResponse 200 [aliceCredited]) UiThrows])).
  reflexivity.
Defined.

(** ** What the scan returns, and when it breaks off *)

Lemma credentialsMatch_true (user pass : string) (u : value) :
  credentialsMatch user pass u = Normal true <-> recordMatches user pass u.
Proof.
  unfold credentialsMatch, recordMatches, secretOf. split.
  - destruct (get u "username") as [[| | | |name| |]|] eqn:Hn; simpl; try discriminate.
    destruct (String.eqb (trim name) (trim user)) eqn:En; [|discriminate].
    destruct (get u "password") as [password|]; simpl; [|discriminate].
    destruct (call_toString password) as [secret|]; simpl; [|discriminate].
    intros H. injection H as H. apply String.eqb_eq in En, H.
    exists name, secret. auto.
  - intros (name & secret & Hn & Ht & Hs & Heq). rewrite Hn. simpl.
    rewrite Ht, String.eqb_refl.
    destruct (get u "password") as [password|]; simpl in *; [|discriminate].
    rewrite Hs. simpl. rewrite Heq, String.eqb_refl. reflexivity.
Qed.

Lemma find_elem_normal (p : value -> completion bool) (l : list value) (r : value) :
  find_elem p l = Normal r ->
  (exists before after,
      l = before ++ r :: after /\
      (forall u, In u before -> p u = Normal false) /\ p r = Normal true) \/
  (r = VUndefined /\ forall u, In u l -> p u = Normal false).
Proof.
  induction l as [|u rest IH]; simpl; intros H.
  - right. split; [congruence|intros u []].
  - destruct (p u) as [[|]|e] eqn:E; [| |discriminate].
    + left. injection H as <-. exists [], rest. repeat split; [intros v []|exact E].
    + destruct (IH H) as [(before & after & -> & Hb & Hr)|[-> Hall]].
      * left. exists (u :: before), after. repeat split; [|exact Hr].
        intros v [<-|Hv]; [exact E|apply Hb; exact Hv].
      * right. split; [reflexivity|]. intros v [<-|Hv]; [exact E|apply Hall; exact Hv].
Qed.

(** Whatever the scan of [processLogin] returns is the first record of the
    collection that matches the submitted credentials, no record before it
    matching; and it returns [undefined] only when no record matches. *)
Theorem userFound_sound (records : list value) (user pass : string) (r : value) :
  userFound (VArr records) user pass = Normal r ->
  (exists before after,
      records = before ++ r :: after /\ recordMatches user pass r /\
      forall u, In u before -> ~ recordMatches user pass u) \/
  (r = VUndefined /\ forall u, In u records -> ~ recordMatches user pass u).
Proof.
  unfold userFound, call_find. intros H.
  destruct (find_elem_normal _ _ _ H) as [(before & after & -> & Hb & Hr)|[-> Hall]].
  - left. exists before, after. repeat split; [apply credentialsMatch_true; exact Hr|].
    intros u Hu Hm. apply credentialsMatch_true in Hm. rewrite (Hb u Hu) in Hm. discriminate.
  - right. split; [reflexivity|].
    intros u Hu Hm. apply credentialsMatch_true in Hm. rewrite (Hall u Hu) in Hm. discriminate.
Qed.

Lemma userFound_sound_witness :
  exists before after,
    [bob; alice] = before ++ alice :: after /\ recordMatches " alice" "1234 " alice /\
    forall u, In u before -> ~ recordMatches " alice" "1234 " u.
Proof.
  destruct (userFound_sound [bob; alice] " alice" "1234 " alice eq_refl)
    as [H|[H _]]; [exact H|discriminate].
Defined.

Lemma credentialsMatch_no_name (user pass : string) (u : value) :
  (forall name, get u "username" <> Normal (VStr name)) ->
  credentialsMatch user pass u = Throw TypeError.
Proof.
  intros H. unfold credentialsMatch.
  destruct (get u "username") as [[| | | |name| |]|e] eqn:Hn; simpl; try reflexivity.
  - exfalso. exact (H name eq_refl).
  - destruct u; simpl in Hn; try discriminate; try congruence.
    destruct (own_property "username" props); discriminate.
Qed.

Lemma quiet_records (user pass : string) (before : list value) :
  Forall (fun u => isUserRecord u = true) before ->
  (forall u, In u before -> ~ recordMatches user pass u) ->
  forall u, In u before -> credentialsMatch user pass u = Normal false.
Proof.
  intros Hwf Hnone u Hu. rewrite Forall_forall in Hwf.
  destruct (credentialsMatch_record user pass u (Hwf u Hu)) as [[Hm _]|[_ Hc]];
    [exfalso; exact (Hnone u Hu Hm)|exact Hc].
Qed.

Lemma find_elem_throw (p : value -> completion bool) (before after : list value)
    (bad : value) (e : error) :
  (forall u, In u before -> p u = Normal false) -> p bad = Throw e ->
  find_elem p (before ++ bad :: after) = Throw e.
Proof.
  induction before as [|u rest IH]; intros H Hbad; simpl.
  - rewrite Hbad. reflexivity.
  - rewrite (H u (or_introl eq_refl)). apply IH; [|exact Hbad].
    intros v Hv. apply H. right. exact Hv.
Qed.

(** A record without a string [username] (a [null] row, a handle the sheet
    stores as a number) breaks the scan off for every user who is not found
    before it: the scan throws, and the login attempt ends with the vault
    error, whatever records follow. *)
Theorem userFound_stops_at_nameless (before after : list value) (bad : value)
    (user pass : string) :
  Forall (fun u => isUserRecord u = true) before ->
  (forall u, In u before -> ~ recordMatches user pass u) ->
  (forall name, get bad "username" <> Normal (VStr name)) ->
  userFound (VArr (before ++ bad :: after)) user pass = Throw TypeError /\
  (user <> EmptyString -> pass <> EmptyString ->
   forall outcome now ui w,
     fetchVault outcome = Normal (VArr (before ++ bad :: after)) ->
     processLogin user pass outcome now ui w =
     (Normal tt, appendTrace (loginRequest ++ vaultFault) w)).
Proof.
  intros Hwf Hnone Hbad.
  assert (Hscan : userFound (VArr (before ++ bad :: after)) user pass = Throw TypeError).
  { unfold userFound, call_find. apply find_elem_throw.
    - apply quiet_records; assumption.
    - apply credentialsMatch_no_name. exact Hbad. }
  split; [exact Hscan|].
  intros Huser Hpass outcome now ui w Hvault.
  rewrite processLogin_sent by (apply credentialsMissing_false; split; assumption).
  rewrite (processLogin_resume_scan_fault _ _ _ _ _ _ _ _ Hvault Hscan).
  rewrite appendTrace_appendTrace. reflexivity.
Qed.

Lemma userFound_stops_at_nameless_witness :
  userFound (VArr ([bob] ++ VObj [("username", VNum "7"); ("password", VStr "x")] :: [alice]))
    "alice" "1234" = Throw TypeError.
Proof.
  refine (proj1 (userFound_stops_at_nameless [bob] [alice]
                   (VObj [("username", VNum "7"); ("password", VStr "x")]) "alice" "1234"
                   _ _ _)).
  - repeat constructor.
  - intros u [<-|[]]. apply bob_is_not_alice.
  - intros name H. discriminate.
Defined.

(** The records after the first match are never looked at: with the records
    before it well formed and not matching, the scan returns the match
    whatever follows it, malformed rows included. *)
Theorem userFound_ignores_rest (before after : list value) (r : value) (user pass : string) :
  Forall (fun u => isUserRecord u = true) before ->
  (forall u, In u before -> ~ recordMatches user pass u) ->
  recordMatches user pass r ->
  userFound (VArr (before ++ r :: after)) user pass = Normal r.
Proof.
  intros Hwf Hnone Hr. unfold userFound, call_find. apply find_elem_first.
  - apply quiet_records; assumption.
  - apply credentialsMatch_true. exact Hr.
Qed.

Lemma userFound_ignores_rest_witness :
  userFound (VArr ([bob] ++ alice :: [VNull; VNum "3"])) "alice" "1234" = Normal alice.
Proof.
  apply (userFound_ignores_rest [bob] [VNull; VNum "3"] alice "alice" "1234").
  - repeat constructor.
  - intros u [<-|[]]. apply bob_is_not_alice.
  - exists "alice", "1234". repeat split.
Defined.

(** The password of a record is read only when its name matches. A
    collection in which every record has a string [username], and every record
    whose trimmed name is the submitted one has a secret with a string form,
    never makes the scan throw, whatever the other records hold as password. *)
Theorem userFound_reads_password_on_name_match (records : list value) (user pass : string) :
  (forall u, In u records ->
     exists name, get u "username" = Normal (VStr name) /\
                  (trim name = trim user -> exists secret, secretOf u = Normal secret)) ->
  exists r, userFound (VArr records) user pass = Normal r.
Proof.
  unfold userFound, call_find.
  induction records as [|u rest IH]; intros H; simpl; [eexists; reflexivity|].
  destruct (H u (or_introl eq_refl)) as (name & Hn & Hs).
  assert (Hc : exists b, credentialsMatch user pass u = Normal b).
  { unfold credentialsMatch. rewrite Hn. simpl.
    destruct (String.eqb (trim name) (trim user)) eqn:E; [|eexists; reflexivity].
    apply String.eqb_eq in E. destruct (Hs E) as [secret Hsec].
    unfold secretOf in Hsec.
    destruct (get u "password") as [password|]; simpl in *; [|discriminate].
    rewrite Hsec. simpl. eexists; reflexivity. }
  destruct Hc as [[|] ->]; [eexists; reflexivity|].
  apply IH. intros v Hv. apply H. right. exact Hv.
Qed.

Lemma userFound_reads_password_on_name_match_witness :
  exists r,
    userFound (VArr [VObj [("username", VStr "guest")]; alice]) "alice" "1234" = Normal r.
Proof.
  apply userFound_reads_password_on_name_match.
  intros u [<-|[<-|[]]].
  - exists "guest". split; [reflexivity|]. intros H. vm_compute in H. discriminate.
  - exists "alice". split; [reflexivity|]. intros _. exists "1234". reflexivity.
Defined.

(** A record whose name matches and whose [password] is absent or [null]
    breaks the scan off: the login attempt for that name ends with the vault
    error, not with a refusal. *)
Theorem userFound_stops_at_missing_password (before after : list value) (u : value)
    (name user pass : string) :
  Forall (fun v => isUserRecord v = true) before ->
  (forall v, In v before -> ~ recordMatches user pass v) ->
  get u "username" = Normal (VStr name) -> trim name = trim user ->
  (get u "password" = Normal VUndefined \/ get u "password" = Normal VNull) ->
  userFound (VArr (before ++ u :: after)) user pass = Throw TypeError /\
  (user <> EmptyString -> pass <> EmptyString ->
   forall outcome now ui w,
     fetchVault outcome = Normal (VArr (before ++ u :: after)) ->
     processLogin user pass outcome now ui w =
     (Normal tt, appendTrace (loginRequest ++ vaultFault) w)).
Proof.
  intros Hwf Hnone Hn Ht Hp.
  assert (Hscan : userFound (VArr (before ++ u :: after)) user pass = Throw TypeError).
  { unfold userFound, call_find. apply find_elem_throw.
    - apply quiet_records; assumption.
    - unfold credentialsMatch. rewrite Hn. simpl. rewrite Ht, String.eqb_refl.
      destruct Hp as [-> | ->]; reflexivity. }
  split; [exact Hscan|].
  intros Huser Hpass outcome now ui w Hvault.
  rewrite processLogin_sent by (apply credentialsMissing_false; split; assumption).
  rewrite (processLogin_resume_scan_fault _ _ _ _ _ _ _ _ Hvault Hscan).
  rewrite appendTrace_appendTrace. reflexivity.
Qed.

Lemma userFound_stops_at_missing_password_witness :
  userFound (VArr ([bob] ++ erin :: [])) "erin" "pw" = Normal erin /\
  userFound (VArr ([bob] ++ VObj [("username", VStr "erin ")] :: [erin])) "erin" "pw" =
  Throw TypeError.
Proof.
  split; [reflexivity|].
  refine (proj1 (userFound_stops_at_missing_password [bob] [erin]
                   (VObj [("username", VStr "erin ")]) "erin " "erin" "pw" _ _ _ _ _)).
  - repeat constructor.
  - intros v [<-|[]] (n & s & Hn & Ht & _). simpl in Hn. injection Hn as <-.
    vm_compute in Ht. discriminate.
  - reflexivity.
  - reflexivity.
  - left. reflexivity.
Defined.

(** ** What a step adds to the trace *)

Ltac all_known :=
  repeat (first [apply Forall_nil | apply Forall_cons]); simpl; auto 8.

Lemma processLogin_resume_verified_world outcome (user pass : string) now ui (w : World)
    vaultData r :
  fetchVault outcome = Normal vaultData ->
  userFound vaultData user pass = Normal r ->
  truthy r = true ->
  processLogin_resume outcome user pass now ui w =
  (Normal tt,
   {| activeSession := mkSession true r (Some now);
      trace := trace w ++
               match ui, accessGranted r with
               | UiCompletes, _ => [ShowDashboard; RenderDashboard r]
               | UiThrows, Normal _ => [ShowDashboard; RenderDashboard r] ++ vaultFault
               | UiThrows, Throw _ => vaultFault
               end;
      loginsInFlight := loginsInFlight w; syncsInFlight := syncsInFlight w |}).
Proof.
  intros H1 H2 H3. unfold processLogin_resume, try_catch, bind, lift. rewrite H1, H2, H3.
  unfold handleAuthSuccess, renderDashboard, bind, writeSession, readSession, emit,
    showNotification, setLoadingState, emit, throw, ret; simpl.
  destruct ui; destruct (accessGranted r); simpl; unfold vaultFault;
    rewrite <- ?app_assoc; reflexivity.
Qed.

Lemma quiet_vaultFault : quiet vaultFault.
Proof. split; [all_known|reflexivity]. Qed.

Lemma quiet_accessDenied : quiet accessDenied.
Proof. split; [all_known|reflexivity]. Qed.

Lemma processLogin_resume_trace outcome (user pass : string) now ui (w : World) :
  exists es, trace (snd (processLogin_resume outcome user pass now ui w)) = trace w ++ es /\
             quiet es.
Proof.
  destruct (fetchVault outcome) as [vaultData|e] eqn:H1.
  - destruct (userFound vaultData user pass) as [r|e] eqn:H2.
    + destruct (truthy r) eqn:H3.
      * rewrite (processLogin_resume_verified_world _ _ _ _ _ _ _ _ H1 H2 H3). simpl.
        eexists. split; [reflexivity|].
        destruct ui; destruct (accessGranted r); split; try reflexivity; all_known.
      * rewrite (processLogin_resume_no_match _ _ _ _ _ _ _ _ H1 H2 H3).
        exists accessDenied. split; [reflexivity|apply quiet_accessDenied].
    + rewrite (processLogin_resume_scan_fault _ _ _ _ _ _ _ _ H1 H2).
      exists vaultFault. split; [reflexivity|apply quiet_vaultFault].
  - rewrite (processLogin_resume_vault_fault _ _ _ _ _ _ _ H1).
    exists vaultFault. split; [reflexivity|apply quiet_vaultFault].
Qed.

Lemma autoSync_resume_trace (outcome : FetchOutcome) (ui : UiOutcome) (w : World) :
  exists es, trace (snd (autoSync_resume outcome ui w)) = trace w ++ es /\ quiet es.
Proof.
  unfold autoSync_resume, try_catch, bind, lift, readSession.
  assert (Hwarn : exists es,
             trace (snd (emit (ConsoleWarn "Sync temporarily interrupted.") w)) =
             trace w ++ es /\ quiet es).
  { eexists. split; [reflexivity|]. split; [all_known|reflexivity]. }
  assert (Hnone : exists es, trace w = trace w ++ es /\ quiet es).
  { exists []. split; [symmetry; apply app_nil_r|]. split; [constructor|reflexivity]. }
  destruct (fetchVault outcome) as [vaultData|e]; [|exact Hwarn].
  destruct vaultData as [| | | | |elems|]; simpl; try exact Hwarn.
  destruct (find_elem (sameUsername (activeSession w)) elems) as [r|e]; [|exact Hwarn].
  destruct (truthy r); [|exact Hnone].
  unfold renderDashboard, writeSession, bind, readSession, emit, throw, ret; simpl.
  destruct ui; simpl; rewrite <- ?app_assoc; eexists;
    (split; [reflexivity|split; [all_known|reflexivity]]).
Qed.

Lemma step_trace (w : World) (ev : event) :
  exists es,
    trace (step w ev) = trace w ++ es /\ Forall knownNotification es /\
    length (filter isFetch es) <= (if sendsRequest ev then 1 else 0).
Proof.
  destruct ev as [user pass|outcome user pass now ui| |outcome ui|]; unfold step.
  - unfold processLogin_begin, bind. destruct (credentialsMissing user pass).
    + eexists. split; [reflexivity|]. split; [all_known|simpl; lia].
    + unfold setLoadingState, emit, ret; simpl. rewrite <- !app_assoc.
      eexists. split; [reflexivity|]. split; [all_known|simpl; lia].
  - destruct (loginsInFlight w) as [|n].
    + exists []. split; [symmetry; apply app_nil_r|]. split; [constructor|simpl; lia].
    + destruct (processLogin_resume_trace outcome user pass now ui (with_loginsInFlight n w))
        as (es & Hes & Hk & Hf).
      exists es. split; [exact Hes|]. split; [exact Hk|rewrite Hf; simpl; lia].
  - unfold autoSync_begin, bind, readSession. destruct (isAuthenticated (activeSession w)).
    + eexists. split; [reflexivity|]. split; [all_known|simpl; lia].
    + exists []. split; [symmetry; apply app_nil_r|]. split; [constructor|simpl; lia].
  - destruct (syncsInFlight w) as [|n].
    + exists []. split; [symmetry; apply app_nil_r|]. split; [constructor|simpl; lia].
    + destruct (autoSync_resume_trace outcome ui (with_syncsInFlight n w))
        as (es & Hes & Hk & Hf).
      exists es. split; [exact Hes|]. split; [exact Hk|rewrite Hf; simpl; lia].
  - eexists. split; [reflexivity|]. split; [all_known|simpl; lia].
Qed.

Lemma run_cons (w : World) (ev : event) (evs : list event) :
  run w (ev :: evs) = run (step w ev) evs.
Proof. reflexivity. Qed.

Lemma fetchCount_trace (w : World) : fetchCount w = length (filter isFetch (trace w)).
Proof. reflexivity. Qed.

(** ** The event loop as a whole *)

(** Requests go out only where a login is submitted or the timer fires, one
    at most each time: the network calls of a run never outnumber those
    events, so a read that failed is never tried again by the code that
    resumes. *)
Theorem fetchCount_bounded (evs : list event) (w : World) :
  fetchCount (run w evs) <= fetchCount w + length (filter sendsRequest evs).
Proof.
  revert w. induction evs as [|ev rest IH]; intros w; [simpl; lia|].
  rewrite run_cons. specialize (IH (step w ev)).
  destruct (step_trace w ev) as (es & Hes & _ & Hf).
  rewrite (fetchCount_trace (step w ev)), Hes, filter_app, length_app in IH.
  rewrite (fetchCount_trace w). simpl filter.
  destruct (sendsRequest ev); simpl length; lia.
Qed.

(** Every notification the script ever shows is of type [error] and carries
    one of its three messages: no run shows a success notification. *)
Theorem notifications_are_errors (evs : list event) :
  Forall knownNotification (trace (run initialWorld evs)).
Proof.
  assert (H : forall w, Forall knownNotification (trace w) ->
                        Forall knownNotification (trace (run w evs))).
  { induction evs as [|ev rest IH]; intros w Hw; [exact Hw|].
    rewrite run_cons. apply IH.
    destruct (step_trace w ev) as (es & -> & Hk & _).
    apply Forall_app. split; assumption. }
  apply H. constructor.
Qed.

Lemma step_keeps_authenticated (w : World) (ev : event) :
  ev <> LoggedOut -> isAuthenticated (activeSession w) = true ->
  isAuthenticated (activeSession (step w ev)) = true.
Proof.
  intros Hev Hauth.
  destruct ev as [user pass|outcome user pass now ui| |outcome ui|]; unfold step.
  - pose proof (processLogin_begin_session user pass w) as H.
    destruct (processLogin_begin user pass w) as [[[|]|e] w']; simpl in *; rewrite H;
      exact Hauth.
  - destruct (loginsInFlight w) as [|n]; [exact Hauth|].
    destruct (processLogin_resume_session outcome user pass now ui (with_loginsInFlight n w))
      as [->|(props & name & _ & ->)]; [exact Hauth|reflexivity].
  - pose proof (autoSync_begin_session w) as H.
    destruct (autoSync_begin w) as [[[|]|e] w']; simpl in *; rewrite H; exact Hauth.
  - destruct (syncsInFlight w) as [|n]; [exact Hauth|].
    rewrite (proj1 (autoSync_resume_keeps outcome ui (with_syncsInFlight n w))). exact Hauth.
  - congruence.
Qed.

(** Nothing but a logout ends a session: through any events without a logout
    (failed logins, failed or empty syncs, a vault that lost the record), an
    authenticated session stays authenticated. *)
Theorem authenticated_until_logout (evs : list event) (w : World) :
  Forall (fun ev => ev <> LoggedOut) evs ->
  isAuthenticated (activeSession w) = true ->
  isAuthenticated (activeSession (run w evs)) = true.
Proof.
  revert w. induction evs as [|ev rest IH]; intros w Hevs Hauth; [exact Hauth|].
  inversion Hevs as [|? ? Hev Hrest]; subst.
  rewrite run_cons. apply IH; [exact Hrest|].
  apply step_keeps_authenticated; assumption.
Qed.

Lemma authenticated_until_logout_witness :
  isAuthenticated (activeSession
    (run aliceLoggedIn
       [TimerFired; SyncFetchSettled Rejected UiCompletes;
        LoginSubmitted "bob" "wrong";
        LoginFetchSettled (vaultResponse 200 []) "bob" "wrong" 2000 UiCompletes;
        TimerFired; SyncFetchSettled (vaultResponse 200 [bob]) UiCompletes])) = true.
Proof.
  apply authenticated_until_logout; [|reflexivity].
  repeat constructor; discriminate.
Defined.

Lemma step_keeps_identity (w : World) (ev : event) :
  keepsIdentity ev = true -> SessionInvariant (activeSession w) ->
  get (userData (activeSession (step w ev))) "username" =
  get (userData (activeSession w)) "username".
Proof.
  intros Hev Hinv.
  destruct ev as [user pass|outcome user pass now ui| |outcome ui|]; try discriminate;
    unfold step.
  - pose proof (processLogin_begin_session user pass w) as H.
    destruct (processLogin_begin user pass w) as [[[|]|e] w']; simpl in *; rewrite H;
      reflexivity.
  - pose proof (autoSync_begin_session w) as H.
    destruct (autoSync_begin w) as [[[|]|e] w']; simpl in *; rewrite H; reflexivity.
  - destruct (syncsInFlight w) as [|n]; [reflexivity|].
    destruct (autoSync_resume_cases outcome ui (with_syncsInFlight n w))
      as [_ [->|(elems & r & _ & H2 & H3 & ->)]]; [reflexivity|].
    destruct (find_elem_found _ _ _ H2) as [->|[_ Hacc]]; [discriminate|].
    destruct (sameUsername_accepts _ _ Hacc) as (name & held & Hn & Hh & Heq).
    simpl in *.
    destruct Hinv as [(_ & Hnull & _)|(_ & (props & h & Hu & Hp) & _)].
    + rewrite Hnull in Hh. discriminate.
    + rewrite Hh. rewrite Hu in Hh. simpl in Hh. rewrite Hp in Hh. injection Hh as <-.
      apply strict_equals_string in Heq. subst name. exact Hn.
Qed.

(** A sync follows the identity key: through any ticks, settled syncs and
    login submissions, the record in the session keeps the [username] it had,
    whatever the vault returns. Only a settled login or a logout can change
    whose session it is. *)
Theorem sync_keeps_identity (evs : list event) (w : World) :
  SessionInvariant (activeSession w) ->
  Forall (fun ev => keepsIdentity ev = true) evs ->
  get (userData (activeSession (run w evs))) "username" =
  get (userData (activeSession w)) "username".
Proof.
  revert w. induction evs as [|ev rest IH]; intros w Hinv Hevs; [reflexivity|].
  inversion Hevs as [|? ? Hev Hrest]; subst.
  rewrite run_cons, (IH (step w ev)); [|apply step_invariant; exact Hinv|exact Hrest].
  apply step_keeps_identity; assumption.
Qed.

Lemma sync_keeps_identity_witness :
  get (userData (activeSession
        (run aliceLoggedIn
           [TimerFired; SyncFetchSettled (vaultResponse 200 [bob; aliceCredited]) UiCompletes])))
    "username" = Normal (VStr "alice").
Proof.
  rewrite (sync_keeps_identity
             [TimerFired; SyncFetchSettled (vaultResponse 200 [bob; aliceCredited]) UiCompletes]
             aliceLoggedIn).
  - reflexivity.
  - right. repeat split; [do 2 eexists; split; reflexivity|eexists; reflexivity].
  - repeat constructor.
Defined.

Lemma strict_equals_other (n : value) (h : string) :
  n <> VStr h -> strict_equals n (VStr h) = false.
Proof.
  intros H. destruct (strict_equals n (VStr h)) eqn:E; [|reflexivity].
  exfalso. apply H. apply strict_equals_string. exact E.
Qed.

(** A tick taken while a record is held replaces it with the first record of
    the fetched collection whose [username] is the held one, and has the
    dashboard drawn from it; the password and the other fields of that record
    are not compared with anything, and the flag and [lastSync] stay. *)
Theorem autoSync_takes_first_namesake (w : World) (st : nat) (result : value)
    (before after : list value) (r : value) (h : string) (ui : UiOutcome) :
  SessionInvariant (activeSession w) ->
  get (userData (activeSession w)) "username" = Normal (VStr h) ->
  get result "userDatabase" = Normal (VArr (before ++ r :: after)) ->
  (forall u, In u before -> exists n, get u "username" = Normal n /\ n <> VStr h) ->
  get r "username" = Normal (VStr h) ->
  activeSession (snd (autoSync (Resolved (mkResponse st (Some result))) ui w)) =
  set_userData r (activeSession w) /\
  In (RenderDashboard r)
     (trace (snd (autoSync (Resolved (mkResponse st (Some result))) ui w))).
Proof.
  intros Hinv Hheld Hvault Hbefore Hr.
  assert (Hauth : isAuthenticated (activeSession w) = true).
  { destruct Hinv as [(_ & Hnull & _)|(Ha & _)]; [|exact Ha].
    rewrite Hnull in Hheld. discriminate. }
  unfold autoSync, bind. rewrite (autoSync_begin_authenticated w Hauth).
  apply (autoSync_resume_found (Resolved (mkResponse st (Some result))) ui
           (appendTrace [Fetch API_URL] w) before after r).
  - exact Hinv.
  - unfold fetchVault; simpl. exact Hvault.
  - intros u Hu. destruct (Hbefore u Hu) as (n & Hn & Hneq).
    unfold sameUsername. simpl. rewrite Hn, Hheld. simpl.
    rewrite (strict_equals_other n h Hneq). reflexivity.
  - unfold sameUsername. simpl. rewrite Hr, Hheld. simpl. rewrite String.eqb_refl.
    reflexivity.
Qed.

Lemma autoSync_takes_first_namesake_witness :
  activeSession (snd (autoSync (vaultResponse 200 ([bob] ++ aliceCredited :: [alice]))
                        UiCompletes aliceLoggedIn)) =
  set_userData aliceCredited (activeSession aliceLoggedIn).
Proof.
  refine (proj1 (autoSync_takes_first_namesake aliceLoggedIn 200
                   (VObj [("userDatabase", VArr ([bob] ++ aliceCredited :: [alice]))])
                   [bob] [alice] aliceCredited "alice" UiCompletes _ _ _ _ _)).
  - right. repeat split; [do 2 eexists; split; reflexivity|eexists; reflexivity].
  - reflexivity.
  - reflexivity.
  - intros u [<-|[]]. eexists. split; [reflexivity|discriminate].
  - reflexivity.
Defined.

Lemma step_login_submitted (w : World) (user pass : string) :
  credentialsMissing user pass = false ->
  activeSession (step w (LoginSubmitted user pass)) = activeSession w /\
  loginsInFlight (step w (LoginSubmitted user pass)) = S (loginsInFlight w).
Proof.
  intros H. unfold step, processLogin_begin, bind. rewrite H. split; reflexivity.
Qed.

Lemma step_login_settled (w : World) (n : nat) outcome (user pass : string) now ui :
  loginsInFlight w = S n ->
  step w (LoginFetchSettled outcome user pass now ui) =
  snd (processLogin_resume outcome user pass now ui (with_loginsInFlight n w)).
Proof. intros H. unfold step. rewrite H. reflexivity. Qed.

(** The credentials verified are those the two fields hold when the response
    arrives, not those they held when the attempt was submitted: whatever was
    submitted (both fields filled), the session is set when the fields then
    match a record, and left alone when they then match none. *)
Theorem login_reads_fields_at_settle (w : World) (user1 pass1 user2 pass2 : string)
    (outcome : FetchOutcome) (now : Z) (ui : UiOutcome) (vaultData r : value) :
  credentialsMissing user1 pass1 = false ->
  fetchVault outcome = Normal vaultData ->
  userFound vaultData user2 pass2 = Normal r ->
  (truthy r = true ->
   activeSession (step (step w (LoginSubmitted user1 pass1))
                    (LoginFetchSettled outcome user2 pass2 now ui)) =
   mkSession true r (Some now)) /\
  (truthy r = false ->
   activeSession (step (step w (LoginSubmitted user1 pass1))
                    (LoginFetchSettled outcome user2 pass2 now ui)) =
   activeSession w).
Proof.
  intros Hm H1 H2.
  destruct (step_login_submitted w user1 pass1 Hm) as [Hs Hn].
  split; intros H3;
    rewrite (step_login_settled _ _ outcome user2 pass2 now ui Hn).
  - apply (processLogin_resume_verified _ _ _ _ _ _ _ _ H1 H2 H3).
  - rewrite (processLogin_resume_no_match _ _ _ _ _ _ _ _ H1 H2 H3). simpl. exact Hs.
Qed.

Lemma login_reads_fields_at_settle_witness :
  activeSession (step (step initialWorld (LoginSubmitted "alice" "wrong"))
                   (LoginFetchSettled (vaultResponse 200 [alice]) "alice" "1234" 5
                      UiCompletes)) =
  mkSession true alice (Some 5%Z) /\
  activeSession (step (step initialWorld (LoginSubmitted "alice" "1234"))
                   (LoginFetchSettled (vaultResponse 200 [alice]) "alice" "oops" 5
                      UiCompletes)) =
  activeSession initialWorld.
Proof.
  split.
  - apply (proj1 (login_reads_fields_at_settle initialWorld "alice" "wrong" "alice" "1234"
                    (vaultResponse 200 [alice]) 5 UiCompletes (VArr [alice]) alice
                    eq_refl eq_refl eq_refl)).
    reflexivity.
  - apply (proj2 (login_reads_fields_at_settle initialWorld "alice" "1234" "alice" "oops"
                    (vaultResponse 200 [alice]) 5 UiCompletes (VArr [alice]) VUndefined
                    eq_refl eq_refl eq_refl)).
    reflexivity.
Defined.

(** ** The dashboard *)

Lemma splitSemicolon_nonempty (s : string) : splitSemicolon s <> [].
Proof.
  destruct s as [|c rest]; simpl; [discriminate|].
  destruct (Ascii.eqb c ";"%char); [discriminate|].
  destruct (splitSemicolon rest); discriminate.
Qed.

Lemma splitSemicolon_length (s : string) : length (splitSemicolon s) = S (semicolons s).
Proof.
  induction s as [|c rest IH]; simpl; [reflexivity|].
  destruct (Ascii.eqb c ";"%char); simpl; [rewrite IH; reflexivity|].
  destruct (splitSemicolon rest) as [|piece pieces] eqn:E; simpl in *; [discriminate|exact IH].
Qed.

Lemma joinSemicolon_splitSemicolon (s : string) : joinSemicolon (splitSemicolon s) = s.
Proof.
  induction s as [|c rest IH]; simpl; [reflexivity|].
  destruct (Ascii.eqb c ";"%char) eqn:Ec.
  - apply Ascii.eqb_eq in Ec. subst c.
    destruct (splitSemicolon rest) as [|piece pieces] eqn:E;
      [exfalso; exact (splitSemicolon_nonempty rest E)|].
    simpl in *. rewrite IH. reflexivity.
  - destruct (splitSemicolon rest) as [|piece pieces] eqn:E;
      [exfalso; exact (splitSemicolon_nonempty rest E)|].
    simpl in *. destruct pieces; simpl in *; rewrite <- IH; reflexivity.
Qed.

(** Takes [renderDashboard_board] apart, one conversion after the other. *)
Ltac render_step :=
  match goal with
  | |- context [match ?c with Normal _ => _ | Throw _ => _ end] =>
      let E := fresh "E" in destruct c eqn:E; simpl
  | H : context [match ?c with Normal _ => _ | Throw _ => _ end] |- _ =>
      let E := fresh "E" in destruct c eqn:E; simpl in H
  end.

Ltac render_open :=
  unfold renderDashboard_board, se_bind, se_lift, se_write, se_ret; simpl.

Lemma renderDashboard_board_throws (pf : Platform) (u : value) (d : Dashboard) :
  (forall s, get u "accountType" <> Normal (VStr s)) ->
  exists e, fst (renderDashboard_board pf u d) = Throw e.
Proof.
  intros Htype. render_open.
  do 7 (render_step; [|eexists; reflexivity]).
  destruct (get u "accountType") as [accountType|e] eqn:Et; simpl; [|eexists; reflexivity].
  destruct accountType; simpl; try (eexists; reflexivity).
  exfalso. exact (Htype s eq_refl).
Qed.

(** A record whose [accountType] is not a string is never drawn to the end:
    [renderDashboard] throws at line 111 at the latest, and the account type,
    the credit score, the status, the history and the avatar on the page are
    those of the record drawn before. *)
Theorem renderDashboard_needs_accountType (pf : Platform) (u : value) (d : Dashboard) :
  (forall s, get u "accountType" <> Normal (VStr s)) ->
  (exists e, fst (renderDashboard_board pf u d) = Throw e) /\
  userAccType (snd (renderDashboard_board pf u d)) = userAccType d /\
  userCredit (snd (renderDashboard_board pf u d)) = userCredit d /\
  userStatus (snd (renderDashboard_board pf u d)) = userStatus d /\
  userHistory (snd (renderDashboard_board pf u d)) = userHistory d /\
  userAvatar (snd (renderDashboard_board pf u d)) = userAvatar d.
Proof.
  intros Htype. render_open.
  do 7 (render_step; [|repeat split; eexists; reflexivity]).
  destruct (get u "accountType") as [accountType|e] eqn:Et; simpl;
    [|repeat split; eexists; reflexivity].
  destruct accountType; simpl; try (repeat split; eexists; reflexivity).
  exfalso. exact (Htype s eq_refl).
Qed.

Ltac render_cases :=
  repeat first
    [ render_step
    | match goal with
      | |- context [if truthy ?h then _ else _] =>
          let E := fresh "T" in destruct (truthy h) eqn:E; simpl
      end ];
  try discriminate.

(** On a record drawn to the end, a credit score that is absent, empty, [0]
    or [false] is shown as [700], and a status that is absent or empty as
    [Active]; any other value is shown as it converts to a string. *)
Theorem renderDashboard_fallbacks (pf : Platform) (u : value) (d : Dashboard)
    (creditScore accountStatus : value) :
  fst (renderDashboard_board pf u d) = Normal tt ->
  get u "creditScore" = Normal creditScore ->
  get u "accountStatus" = Normal accountStatus ->
  (truthy creditScore = false -> userCredit (snd (renderDashboard_board pf u d)) = "700") /\
  (truthy accountStatus = false ->
   userStatus (snd (renderDashboard_board pf u d)) = "Active") /\
  (truthy creditScore = true ->
   call_toString creditScore = Normal (userCredit (snd (renderDashboard_board pf u d)))) /\
  (truthy accountStatus = true ->
   call_toString accountStatus = Normal (userStatus (snd (renderDashboard_board pf u d)))).
Proof.
  intros H Hc Ha. revert H. render_open. rewrite Hc, Ha. simpl.
  render_cases; intros _; simpl;
    repeat match goal with
           | E : toInnerText (orElse _ _) = Normal _ |- _ => unfold orElse in E
           end;
    repeat split; intros Ht; rewrite Ht in *; simpl in *; try congruence;
    match goal with
    | |- call_toString ?v = _ => destruct v; simpl in *; try discriminate; congruence
    end.
Qed.

(** On a record drawn to the end whose [transactionHistory] is absent or
    empty, the history on the page is not touched: the rows of the record
    drawn before stay on display. *)
Theorem renderDashboard_keeps_old_history (pf : Platform) (u : value) (d : Dashboard)
    (history : value) :
  fst (renderDashboard_board pf u d) = Normal tt ->
  get u "transactionHistory" = Normal history ->
  truthy history = false ->
  userHistory (snd (renderDashboard_board pf u d)) = userHistory d.
Proof.
  intros H Hh Ht. revert H. render_open. rewrite Hh. simpl. rewrite Ht.
  render_cases; intros _; reflexivity.
Qed.

(** On a record drawn to the end whose [transactionHistory] is not empty, it
    is a string, and the history on the page is one row for each piece
    between semicolons, trimmed: one row more than there are semicolons, so a
    history that ends in a semicolon ends in an empty row. The pieces joined
    by semicolons are the history. *)
Theorem renderDashboard_history_rows (pf : Platform) (u : value) (d : Dashboard)
    (history : value) :
  fst (renderDashboard_board pf u d) = Normal tt ->
  get u "transactionHistory" = Normal history ->
  truthy history = true ->
  exists s,
    history = VStr s /\
    userHistory (snd (renderDashboard_board pf u d)) = historyMarkup (splitSemicolon s) /\
    length (splitSemicolon s) = S (semicolons s) /\
    joinSemicolon (splitSemicolon s) = s.
Proof.
  intros H Hh Ht. revert H. render_open. rewrite Hh. simpl. rewrite Ht.
  destruct history as [| | | |s| |]; simpl;
    try (render_cases; fail).
  render_cases; intros _; exists s; simpl;
    (repeat split; [apply splitSemicolon_length|apply joinSemicolon_splitSemicolon]).
Qed.

Lemma scalar_template (v : value) :
  isScalar v = true -> exists t, toTemplateString v = Normal t.
Proof. destruct v; simpl; try discriminate; intros _; eexists; reflexivity. Qed.

Lemma scalar_innerText (v : value) :
  isScalar v = true -> exists t, toInnerText v = Normal t.
Proof. destruct v; simpl; try discriminate; intros _; eexists; reflexivity. Qed.

Lemma scalar_get (props : list (string * value)) (k : string) :
  (forall k v, own_property k props = Some v -> isScalar v = true) ->
  exists v, get (VObj props) k = Normal v /\ isScalar v = true.
Proof.
  intros H. simpl. destruct (own_property k props) as [v|] eqn:E.
  - exists v. split; [reflexivity|exact (H k v E)].
  - exists VUndefined. split; reflexivity.
Qed.

(** A record whose cells are all scalars, whose [accountType] is a string,
    whose [transactionHistory] is a string or absent, and whose balance and
    currency [Intl] accepts, is drawn to the end: [renderDashboard] does not
    throw, and the page shows the formatted balance and the account type in
    upper case. *)
Theorem renderDashboard_completes (pf : Platform) (props : list (string * value))
    (d : Dashboard) (accountType text : string) (balance currency history : value) :
  (forall k v, own_property k props = Some v -> isScalar v = true) ->
  get (VObj props) "accountType" = Normal (VStr accountType) ->
  get (VObj props) "balance" = Normal balance ->
  get (VObj props) "currency" = Normal currency ->
  formatCurrency pf balance currency = Normal text ->
  get (VObj props) "transactionHistory" = Normal history ->
  (truthy history = false \/ exists s, history = VStr s) ->
  fst (renderDashboard_board pf (VObj props) d) = Normal tt /\
  userBalance (snd (renderDashboard_board pf (VObj props) d)) = text /\
  userAccType (snd (renderDashboard_board pf (VObj props) d)) = toUpperCase pf accountType.
Proof.
  intros Hscalar Htype Hbal Hcur Hfmt Hhist Hh.
  destruct (scalar_get props "fullName" Hscalar) as (fullName & Hf & Sf).
  destruct (scalar_get props "accountNumber" Hscalar) as (number & Hn & Sn).
  destruct (scalar_get props "creditScore" Hscalar) as (credit & Hc & Sc).
  destruct (scalar_get props "accountStatus" Hscalar) as (status & Hs & Ss).
  destruct (scalar_innerText fullName Sf) as (t1 & Ht1).
  destruct (scalar_template fullName Sf) as (t2 & Ht2).
  destruct (scalar_template number Sn) as (t3 & Ht3).
  assert (Hcredit : exists t, toInnerText (orElse credit (VStr "700")) = Normal t).
  { apply scalar_innerText. unfold orElse. destruct (truthy credit); [exact Sc|reflexivity]. }
  assert (Hstatus : exists t, toInnerText (orElse status (VStr "Active")) = Normal t).
  { apply scalar_innerText. unfold orElse. destruct (truthy status); [exact Ss|reflexivity]. }
  destruct Hcredit as (t4 & Ht4). destruct Hstatus as (t5 & Ht5).
  unfold renderDashboard_board, se_bind, se_lift, se_write, se_ret.
  rewrite Hf, Ht1, Hbal, Hcur, Hfmt, Hn, Ht3, Htype. simpl call_toUpperCase. cbv iota.
  rewrite Hc, Ht4, Hs, Ht5, Hhist, Ht2.
  destruct Hh as [Hfalse|[s ->]].
  - rewrite Hfalse. repeat split.
  - destruct (truthy (VStr s)); repeat split.
Qed.

Lemma renderDashboard_completes_witness :
  fst (renderDashboard_board plainPlatform dave blankDashboard) = Normal tt /\
  userBalance (snd (renderDashboard_board plainPlatform dave blankDashboard)) = "USD 10".
Proof.
  destruct (renderDashboard_completes plainPlatform
              [("username", VStr "dave"); ("password", VStr "pw");
               ("fullName", VStr "Dave D"); ("accountType", VStr "Savings");
               ("accountNumber", VNum "42"); ("balance", VNum "10");
               ("creditScore", VNum "0"); ("transactionHistory", VStr "rent; salary;")]
              blankDashboard "Savings" "USD 10" (VNum "10") VUndefined (VStr "rent; salary;"))
    as (H1 & H2 & _); try reflexivity.
  - intros k v. simpl.
    repeat match goal with
           | |- context [String.eqb k ?x] => destruct (String.eqb k x)
           end; intros H; try discriminate; injection H as <-; reflexivity.
  - right. eexists; reflexivity.
  - split; assumption.
Defined.

Lemma renderDashboard_needs_accountType_witness :
  (exists e, fst (renderDashboard_board plainPlatform erin blankDashboard) = Throw e) /\
  userAccType (snd (renderDashboard_board plainPlatform erin blankDashboard)) = EmptyString.
Proof.
  destruct (renderDashboard_needs_accountType plainPlatform erin blankDashboard)
    as (H1 & H2 & _).
  - intros s H. discriminate.
  - split; [exact H1|exact H2].
Defined.

Lemma renderDashboard_fallbacks_witness :
  userCredit (snd (renderDashboard_board plainPlatform dave blankDashboard)) = "700" /\
  userStatus (snd (renderDashboard_board plainPlatform dave blankDashboard)) = "Active".
Proof.
  destruct (renderDashboard_fallbacks plainPlatform dave blankDashboard (VNum "0") VUndefined
              eq_refl eq_refl eq_refl) as (H1 & H2 & _).
  split; [apply H1|apply H2]; reflexivity.
Defined.

Lemma renderDashboard_keeps_old_history_witness :
  userHistory (snd (renderDashboard_board plainPlatform alice
                      (snd (renderDashboard_board plainPlatform dave blankDashboard)))) =
  userHistory (snd (renderDashboard_board plainPlatform dave blankDashboard)).
Proof.
  apply (renderDashboard_keeps_old_history plainPlatform alice
           (snd (renderDashboard_board plainPlatform dave blankDashboard)) VUndefined);
    reflexivity.
Defined.

Lemma renderDashboard_history_rows_witness :
  exists s,
    VStr "rent; salary;" = VStr s /\
    userHistory (snd (renderDashboard_board plainPlatform dave blankDashboard)) =
    historyMarkup (splitSemicolon s) /\
    length (splitSemicolon s) = S (semicolons s) /\
    joinSemicolon (splitSemicolon s) = s.
Proof.
  apply (renderDashboard_history_rows plainPlatform dave blankDashboard (VStr "rent; salary;"));
    reflexivity.
Defined.

(** ** Login and the page *)

Lemma handleAuthSuccess_page_stops (pf : Platform) (r : value) (page : Page) :
  (forall s, get r "accountType" <> Normal (VStr s)) ->
  uiOutcomeOf (fst (handleAuthSuccess_page pf r page)) = UiThrows.
Proof.
  intros Htype. unfold handleAuthSuccess_page, se_bind, se_lift, se_write, onBoard.
  destruct (get r "fullName") as [fullName|e]; simpl; [|reflexivity].
  destruct (toTemplateString fullName) as [t|e]; simpl; [|reflexivity].
  destruct (renderDashboard_board_throws pf r (board page) Htype) as [e He].
  destruct (renderDashboard_board pf r (board page)) as [c b]. simpl in *. rewrite He.
  reflexivity.
Qed.

Lemma accessGranted_fault (pf : Platform) (r : value) (page : Page) (e : error) :
  accessGranted r = Throw e ->
  uiOutcomeOf (fst (handleAuthSuccess_page pf r page)) = UiThrows.
Proof.
  unfold accessGranted, handleAuthSuccess_page, se_bind, se_lift, se_write, onBoard.
  destruct (get r "fullName") as [fullName|e']; simpl; [|reflexivity].
  destruct (toTemplateString fullName) as [t|e']; simpl; [discriminate|reflexivity].
Qed.

(** A login that finds a record without a string [accountType] sets the
    session and then fails in the display code: the user is authenticated,
    the dashboard is put on display (when the name of the record is a
    string), and yet the attempt ends with the vault error of the [catch]. *)
Theorem login_without_accountType (pf : Platform) (page : Page) (user pass : string)
    (outcome : FetchOutcome) (now : Z) (w : World) (r : value) :
  LoginVerified user pass outcome r ->
  (forall s, get r "accountType" <> Normal (VStr s)) ->
  uiOutcomeOf (fst (handleAuthSuccess_page pf r page)) = UiThrows /\
  activeSession
    (snd (processLogin user pass outcome now
            (uiOutcomeOf (fst (handleAuthSuccess_page pf r page))) w)) =
  mkSession true r (Some now) /\
  (exists es,
      trace (snd (processLogin user pass outcome now
                    (uiOutcomeOf (fst (handleAuthSuccess_page pf r page))) w)) =
      trace w ++ es ++ vaultFault) /\
  (forall name, get r "fullName" = Normal (VStr name) ->
     layout (snd (handleAuthSuccess_page pf r page)) = showDashboard (layout page)).
Proof.
  intros [vaultData o r' Hm H1 H2 H3] Htype.
  rewrite (handleAuthSuccess_page_stops pf r' page Htype).
  rewrite processLogin_sent by exact Hm.
  rewrite (processLogin_resume_verified_world _ _ _ _ UiThrows _ _ _ H1 H2 H3). simpl.
  repeat split.
  - destruct (accessGranted r').
    + exists (loginRequest ++ [ShowDashboard; RenderDashboard r']).
      rewrite <- !app_assoc. reflexivity.
    + exists loginRequest. rewrite <- !app_assoc. reflexivity.
  - intros name Hname.
    unfold handleAuthSuccess_page, se_bind, se_lift, se_write, onBoard.
    rewrite Hname. simpl.
    destruct (renderDashboard_board pf r' (board page)) as [c b]. reflexivity.
Qed.

Lemma login_without_accountType_witness :
  activeSession
    (snd (processLogin "erin" "pw" (vaultResponse 200 [bob; erin]) 7
            (uiOutcomeOf (fst (handleAuthSuccess_page plainPlatform erin blankPage)))
            initialWorld)) =
  mkSession true erin (Some 7%Z).
Proof.
  refine (proj1 (proj2 (login_without_accountType plainPlatform blankPage "erin" "pw"
                          (vaultResponse 200 [bob; erin]) 7 initialWorld erin _ _))).
  - apply login_verified with (vaultData := VArr [bob; erin]); reflexivity.
  - intros s H. discriminate.
Defined.

Lemma replayButton_app (es1 es2 : list effect) (b : Button) :
  replayButton (es1 ++ es2) b = replayButton es2 (replayButton es1 b).
Proof. unfold replayButton. apply fold_left_app. Qed.

(** The button after a login attempt. An attempt stopped by an empty field
    leaves it as it was. An attempt that sent its request and failed leaves
    it enabled and labelled for a new attempt. An attempt that verified a
    record leaves it disabled under the spinner when the dashboard was drawn,
    and enabled when the display code threw. *)
Theorem button_after_login (user pass : string) (outcome : FetchOutcome) (now : Z)
    (ui : UiOutcome) (w : World) (b : Button) :
  (credentialsMissing user pass = true ->
   replayButton (trace (snd (processLogin user pass outcome now ui w))) b =
   replayButton (trace w) b) /\
  (credentialsMissing user pass = false -> LoginFailed user pass outcome ->
   replayButton (trace (snd (processLogin user pass outcome now ui w))) b =
   {| disabled := false; innerHTML := "AUTHORIZE SESSION" |}) /\
  (forall r, LoginVerified user pass outcome r ->
   replayButton (trace (snd (processLogin user pass outcome now ui w))) b =
   setLoadingState_button (match ui with UiCompletes => true | UiThrows => false end) b).
Proof.
  repeat split.
  - intros Hm. rewrite (processLogin_missing _ _ _ _ _ _ Hm). simpl.
    rewrite replayButton_app. reflexivity.
  - intros Hm Hfail. rewrite processLogin_sent by exact Hm.
    destruct Hfail as [o Hm'|o e H1|o vaultData e H1 H2|o vaultData H1 H2].
    + congruence.
    + rewrite (processLogin_resume_vault_fault _ _ _ _ _ _ _ H1). simpl.
      rewrite !replayButton_app. reflexivity.
    + rewrite (processLogin_resume_scan_fault _ _ _ _ _ _ _ _ H1 H2). simpl.
      rewrite !replayButton_app. reflexivity.
    + rewrite (processLogin_resume_no_match _ _ _ _ _ _ _ _ H1 H2 eq_refl). simpl.
      rewrite !replayButton_app. reflexivity.
  - intros r [vaultData o r' Hm H1 H2 H3].
    rewrite processLogin_sent by exact Hm.
    rewrite (processLogin_resume_verified_world _ _ _ _ _ _ _ _ H1 H2 H3). simpl.
    rewrite !replayButton_app. destruct ui; destruct (accessGranted r'); reflexivity.
Qed.

Lemma button_after_login_witness :
  replayButton
    (trace (snd (processLogin "alice" "wrong" (vaultResponse 200 [alice]) 3 UiCompletes
                   initialWorld)))
    (mkButton false "AUTHORIZE SESSION") =
  {| disabled := false; innerHTML := "AUTHORIZE SESSION" |} /\
  disabled
    (replayButton
       (trace (snd (processLogin "alice" "1234" (vaultResponse 200 [alice]) 3 UiCompletes
                      initialWorld)))
       (mkButton false "AUTHORIZE SESSION")) = true.
Proof.
  split.
  - apply (proj1 (proj2 (button_after_login "alice" "wrong" (vaultResponse 200 [alice]) 3
                           UiCompletes initialWorld (mkButton false "AUTHORIZE SESSION")))).
    + reflexivity.
    + apply failed_no_match with (vaultData := VArr [alice]); reflexivity.
  - rewrite (proj2 (proj2 (button_after_login "alice" "1234" (vaultResponse 200 [alice]) 3
                             UiCompletes initialWorld (mkButton false "AUTHORIZE SESSION")))
               alice).
    + reflexivity.
    + apply login_verified with (vaultData := VArr [alice]); reflexivity.
Defined.

(** [toggleVault] settles on two states: three toggles are one, two toggles
    give the modal back as it was exactly when its [display] was [none] or
    [flex], and the modal a login has hidden is shown by the next toggle. No
    other element is touched. *)
Theorem toggleVault_twice (l : Layout) :
  toggleVault (toggleVault (toggleVault l)) = toggleVault l /\
  (toggleVault (toggleVault l) = l <-> vaultModal l = "none" \/ vaultModal l = "flex") /\
  vaultModal (toggleVault (showDashboard l)) = "flex" /\
  landingHero (toggleVault l) = landingHero l /\
  infoGrid (toggleVault l) = infoGrid l /\
  dashboardApp (toggleVault l) = dashboardApp l.
Proof.
  destruct l as [modal hero grid app]. unfold toggleVault; simpl.
  repeat split.
  - destruct (String.eqb modal "none"); reflexivity.
  - intros H. injection H as H.
    destruct (String.eqb modal "none") eqn:E; simpl in H.
    + left. apply String.eqb_eq. exact E.
    + right. symmetry. exact H.
  - intros [-> | ->]; reflexivity.
Qed.
